(** * fakesimpledb: a SimpleDB emulation over one sqlite file per domain

    Shallow embedding of [fakesimpledb.py] and the properties of its
    domain directory, attribute table and query translator.

    The program talks to three libraries, modelled here as far as the
    program uses them:
    - [re]: a backtracking matcher for the constructs of the two patterns
      of the program (module [Re]);
    - [os]/[sqlite3.connect]: the data directory is a finite map from file
      names to sqlite databases, and connecting to a missing file creates
      an empty database file;
    - [sqlite3]: a database file holds at most the one table [datatable];
      the statements the program issues are functions on that table, and
      the free-form [SELECT] of [select_items] is run by an engine taken as
      a parameter. *)

From Stdlib Require Import Ascii String.
From stdpp Require Import base option list sorting strings pretty gmap.

Local Open Scope string_scope.
Local Open Scope list_scope.

(** ** Strings as character lists *)

Abbreviation chars := list_ascii_of_string.
Abbreviation text := string_of_list_ascii.

Definition newline : ascii := "010"%char.

(** ** Outcomes of a call

    A Python call returns a value or raises.  [Unmodelled] marks inputs on
    which the libraries behave in ways this development does not follow
    (file names with path separators, attribute names that are not plain
    SQL identifiers, queries outside the fragment of an engine). *)

Inductive exn : Type :=
  | AWSErrorException (error_code error_message : string)
  | OperationalError
  | KeyError
  | IndexError
  | AttributeError.

Inductive outcome (A : Type) : Type :=
  | Return (a : A)
  | Raise (e : exn)
  | Unmodelled.
Arguments Return {A} a.
Arguments Raise {A} e.
Arguments Unmodelled {A}.

Definition InvalidParameterValue : string := "InvalidParameterValue".
Definition MissingParameter : string := "MissingParameter".
Definition NumberDomainsExceeded : string := "NumberDomainsExceeded".

(** ** Python's [re], for the patterns of the program *)

Module Re.

(** Character classes. *)
Definition in_range (lo hi : nat) (c : ascii) : bool :=
  let n := nat_of_ascii c in Nat.leb lo n && Nat.leb n hi.
Definition lower (c : ascii) : bool := in_range 97 122 c.
Definition upper (c : ascii) : bool := in_range 65 90 c.
Definition digit (c : ascii) : bool := in_range 48 57 c.
Definition same (x c : ascii) : bool := bool_decide (c = x).

(** [.] without DOTALL: anything but a newline. *)
Definition dot (c : ascii) : bool := negb (same newline c).
(** [\s] on byte strings: space, \t, \n, \v, \f, \r. *)
Definition space (c : ascii) : bool := Ascii.is_space c.
(** The three quote characters: single, double, backtick. *)
Definition quote (c : ascii) : bool :=
  same "039"%char c || same "034"%char c || same "096"%char c.
(** [a-zA-Z_0-9] *)
Definition word (c : ascii) : bool :=
  lower c || upper c || same "_"%char c || digit c.
(** [a-zA-Z0-9_\-\.] *)
Definition name_char (c : ascii) : bool :=
  lower c || upper c || digit c || same "_"%char c || same "-"%char c
  || same "."%char c.

Inductive regex : Type :=
  | Lit (l : list ascii)
  | Class (p : ascii → bool)
  | Cat (r1 r2 : regex)
  | Alt (r1 r2 : regex)
  | Repeat (p : ascii → bool) (lo : nat) (hi : option nat)
  | Group (i : nat) (r : regex)
  | Bol
  | Eol.

Definition can_take (hi : option nat) : bool :=
  match hi with Some 0 => false | _ => true end.

(** Greedy [p{lo,hi}] followed by the rest [k] of the pattern: the
    longest run is tried first, shorter ones on failure of [k]. *)
Fixpoint rep {R} (p : ascii → bool) (lo : nat) (hi : option nat)
    (pos : nat) (s : list ascii)
    (k : nat → list ascii → option R) : option R :=
  let stop := match lo with 0 => k pos s | S _ => None end in
  match s with
  | c :: s' =>
      if p c && can_take hi then
        match rep p (pred lo) (pred <$> hi) (S pos) s' k with
        | Some r => Some r
        | None => stop
        end
      else stop
  | [] => stop
  end.

Abbreviation captures := (gmap nat (list ascii)).

Definition at_end (s : list ascii) : bool :=
  bool_decide (s = []) || bool_decide (s = [newline]).

(** [exec r pos s g k]: match [r] at offset [pos], where [s] is the rest
    of the subject, then continue with [k]; alternatives are tried left
    to right and the first overall success wins. *)
Fixpoint exec (r : regex) (pos : nat) (s : list ascii) (g : captures)
    (k : nat → list ascii → captures → option captures)
    : option captures :=
  match r with
  | Lit l =>
      if bool_decide (l `prefix_of` s)
      then k (pos + length l) (drop (length l) s) g else None
  | Class p =>
      match s with
      | c :: s' => if p c then k (S pos) s' g else None
      | [] => None
      end
  | Cat r1 r2 => exec r1 pos s g (λ pos' s' g', exec r2 pos' s' g' k)
  | Alt r1 r2 =>
      match exec r1 pos s g k with
      | Some m => Some m
      | None => exec r2 pos s g k
      end
  | Repeat p lo hi => rep p lo hi pos s (λ pos' s', k pos' s' g)
  | Group i r =>
      exec r pos s g (λ pos' s' g', k pos' s' (<[i := take (pos' - pos) s]> g'))
  | Bol => if bool_decide (pos = 0) then k pos s g else None
  | Eol => if at_end s then k pos s g else None
  end.

(** [n] is within the upper bound of a repetition. *)
Definition within (hi : option nat) (n : nat) : Prop :=
  match hi with Some m => (n ≤ m)%nat | None => True end.


(** [re.match]: anchored at the start, free at the end. *)
Definition re_match (r : regex) (subject : string) : option captures :=
  exec r 0 (chars subject) ∅ (λ _ _ g, Some g).

(** [m.groups()[i - 1]] *)
Definition group (i : nat) (m : captures) : string :=
  text (default [] (m !! i)).

End Re.

Import Re.

(** ** Python's [str.replace] *)

(** Left to right, non-overlapping: at an occurrence of [old] emit [new]
    and skip the rest of the occurrence. *)
Fixpoint replace_go (old new : list ascii) (skip : nat) (s : list ascii)
    : list ascii :=
  match s with
  | [] => []
  | c :: s' =>
      match skip with
      | S n => replace_go old new n s'
      | 0 =>
          if bool_decide (old `prefix_of` s)
          then new ++ replace_go old new (length old - 1) s'
          else c :: replace_go old new 0 s'
      end
  end.

Definition replace (s old new : string) : string :=
  match chars old with
  | [] => text (chars new ++ concat ((λ c, c :: chars new) <$> chars s))
  | o => text (replace_go o (chars new) 0 (chars s))
  end.

(** ** sqlite: databases, and the statements the program issues *)

Inductive sqlval : Type :=
  | SqlNull
  | SqlInt (n : Z)
  | SqlText (s : string).

Global Instance sqlval_eq_dec : EqDecision sqlval.
Proof. solve_decision. Defined.

(** The table [datatable]: column names in declaration order, rows in
    rowid order. Every column is declared [text], as [put_attributes]
    declares the column of a plain name, so that a text is stored as it
    is; a table with a column of another type has no counterpart here. *)
Record table : Type := Table {
  columns : list string;
  rows : list (list sqlval)
}.

(** A database file; [None] is a file without [datatable], as
    [sqlite3.connect] leaves it. *)
Abbreviation database := (option table).

(** The contents of [DATA_DIR]: one file per name. *)
Abbreviation datadir := (gmap string database).

(** [os.path.join(DATA_DIR, name)] stays a file directly under [DATA_DIR]
    when [name] has no separator; the empty name and the dot names are
    directories. The limit on the length of a file name and the journal
    file that sqlite keeps beside a database are not followed: [in_reach]
    below names the stores for which this makes no difference. *)
Definition has_separator (name : string) : bool :=
  existsb (λ c, same "/"%char c || same "000"%char c) (chars name).
Definition names_directory (name : string) : bool :=
  bool_decide (name ∈ [EmptyString; "."; ".."]).
Definition path_component (name : string) : bool :=
  negb (has_separator name) && negb (names_directory name).

(** [sqlite3.connect(db_name)]: opens the file, creating it empty when it
    is missing. *)
Definition connect (fs : datadir) (name : string)
    : outcome (datadir * database) :=
  if has_separator name then Unmodelled
  else if names_directory name then Raise OperationalError
  else match fs !! name with
       | Some db => Return (fs, db)
       | None => Return (<[name := None]> fs, None)
       end.

(** Identifiers are compared without regard to ASCII case. *)
Definition to_lower (c : ascii) : ascii :=
  if upper c then ascii_of_nat (nat_of_ascii c + 32) else c.
Definition lowercase (s : string) : string := text (to_lower <$> chars s).

Definition sql_keywords : list string :=
  [ "abort"; "action"; "add"; "after"; "all"; "alter"; "always"; "analyze";
    "and"; "as"; "asc"; "attach"; "autoincrement"; "before"; "begin";
    "between"; "by"; "cascade"; "case"; "cast"; "check"; "collate"; "column";
    "commit"; "conflict"; "constraint"; "create"; "cross"; "current";
    "current_date"; "current_time"; "current_timestamp"; "database";
    "default"; "deferrable"; "deferred"; "delete"; "desc"; "detach";
    "distinct"; "do"; "drop"; "each"; "else"; "end"; "escape"; "except";
    "exclude"; "exclusive"; "exists"; "explain"; "fail"; "filter"; "first";
    "following"; "for"; "foreign"; "from"; "full"; "generated"; "glob";
    "group"; "groups"; "having"; "if"; "ignore"; "immediate"; "in"; "index";
    "indexed"; "initially"; "inner"; "insert"; "instead"; "intersect"; "into";
    "is"; "isnull"; "join"; "key"; "last"; "left"; "like"; "limit"; "match";
    "materialized"; "natural"; "no"; "not"; "nothing"; "notnull"; "null";
    "nulls"; "of"; "offset"; "on"; "or"; "order"; "others"; "outer"; "over";
    "partition"; "plan"; "pragma"; "preceding"; "primary"; "query"; "raise";
    "range"; "recursive"; "references"; "regexp"; "reindex"; "release";
    "rename"; "replace"; "restrict"; "returning"; "right"; "rollback"; "row";
    "rows"; "savepoint"; "select"; "set"; "table"; "temp"; "temporary";
    "then"; "ties"; "to"; "transaction"; "trigger"; "unbounded"; "union";
    "unique"; "update"; "using"; "vacuum"; "values"; "view"; "virtual";
    "when"; "where"; "window"; "with"; "without" ].

(** A plain identifier: a letter or underscore, then letters, digits and
    underscores, and no keyword. The text [<name> text] then declares the
    column [<name>]; other names are not followed. *)
Definition sql_identifier (name : string) : bool :=
  match chars name with
  | [] => false
  | c :: cs => (lower c || upper c || same "_"%char c) && forallb word cs
  end
  && negb (bool_decide (lowercase name ∈ sql_keywords)).

(** [create table if not exists datatable (<c1> text, <c2> text, ...)]:
    nothing happens when the table exists; a new table must have distinct
    column names. The limits of sqlite on the columns of a table and on
    the text of a statement are not followed: [within_limits] below names
    the puts for which this makes no difference. *)
Definition create_table_if_not_exists (cols : list string) (db : database)
    : outcome database :=
  if negb (forallb sql_identifier cols) then Unmodelled
  else match db with
       | Some t => Return (Some t)
       | None =>
           if bool_decide (NoDup (lowercase <$> cols))
           then Return (Some (Table cols []))
           else Raise OperationalError
       end.

(** [insert into datatable values (?, ?, ...)]: as many values as the
    table has columns, appended as a new row. *)
Definition insert_values (value_list : list sqlval) (db : database)
    : outcome database :=
  match db with
  | None => Raise OperationalError
  | Some t =>
      if bool_decide (length value_list = length (columns t))
      then Return (Some (Table (columns t) (rows t ++ [value_list])))
      else Raise OperationalError
  end.

Fixpoint column_index (name : string) (cols : list string) : option nat :=
  match cols with
  | [] => None
  | c :: cs =>
      if bool_decide (lowercase c = lowercase name) then Some 0
      else S <$> column_index name cs
  end.

(** The condition [sdbkey=?] on a row, [i] being the place of [sdbkey]. *)
Definition key_is (i : nat) (ItemName : string) (row : list sqlval) : bool :=
  bool_decide (row !! i = Some (SqlText ItemName)).

(** [select * from datatable where sdbkey=?] *)
Definition select_where_sdbkey (ItemName : string) (db : database)
    : outcome (list (list sqlval)) :=
  match db with
  | None => Raise OperationalError
  | Some t =>
      match column_index "sdbkey" (columns t) with
      | None => Raise OperationalError
      | Some i => Return (filter (λ row, key_is i ItemName row) (rows t))
      end
  end.

(** [delete from datatable where sdbkey=?] *)
Definition delete_where_sdbkey (ItemName : string) (db : database)
    : outcome database :=
  match db with
  | None => Raise OperationalError
  | Some t =>
      match column_index "sdbkey" (columns t) with
      | None => Raise OperationalError
      | Some i =>
          Return (Some (Table (columns t)
                    (filter (λ row, negb (key_is i ItemName row)) (rows t))))
      end
  end.

(** [PRAGMA table_info(datatable)], the names only: no rows for a missing
    table. *)
Definition table_info (db : database) : list string :=
  match db with
  | Some t => columns t
  | None => []
  end.

(** A [SELECT] engine: the rows a query text yields on a database. *)
Definition engine : Type := string → database → outcome (list (list sqlval)).

(** Sequencing of outcomes. *)
Global Instance outcome_ret : MRet outcome := λ A a, Return a.
Global Instance outcome_bind : MBind outcome := λ A B f x,
  match x with
  | Return a => f a
  | Raise e => Raise e
  | Unmodelled => Unmodelled
  end.

(** ** The program *)

Definition DOMAIN_CAP : nat := 100.

(** [os.listdir(DATA_DIR)] *)
Definition list_domains (fs : datadir) : list string := (map_to_list fs).*1.

(** The pattern [^[a-zA-Z0-9_\-\.]{3,255}$] of [create_domain]. *)
Definition checkre : regex :=
  Cat Bol (Cat (Repeat name_char 3 (Some 255)) Eol).

(** The rule for domain names: 3 to 255 characters out of
    [a-zA-Z0-9_.-]. *)
Definition valid_name (name : string) : Prop :=
  Forall (λ c, name_char c = true) (chars name)
  ∧ (3 ≤ length (chars name) ≤ 255)%nat.

Definition create_domain (fs : datadir) (DomainName : string)
    : datadir * outcome () :=
  match re_match checkre DomainName with
  | None =>
      (fs, Raise (AWSErrorException InvalidParameterValue
             ("Value (" +:+ DomainName +:+ ") for parameter DomainName is invalid.")))
  | Some _ =>
      let domains := list_domains fs in
      if bool_decide (DOMAIN_CAP ≤ length domains)%nat then
        (fs, Raise (AWSErrorException NumberDomainsExceeded
               "Number of domains limit exceeded."))
      else
        match connect fs DomainName with
        | Return (fs', _) => (fs', Return ())
        | Raise e => (fs, Raise e)
        | Unmodelled => (fs, Unmodelled)
        end
  end.

(** [os.unlink], its [OSError] swallowed. *)
Definition delete_domain (fs : datadir) (DomainName : string)
    : datadir * outcome () :=
  if has_separator DomainName then (fs, Unmodelled)
  else (delete DomainName fs, Return ()).

Definition delete_attributes (fs : datadir) (DomainName ItemName : string)
    : datadir * outcome () :=
  match connect fs DomainName with
  | Return (fs', db) =>
      match delete_where_sdbkey ItemName db with
      | Return db' => (<[DomainName := db']> fs', Return ())
      | Raise e => (fs', Raise e)
      | Unmodelled => (fs', Unmodelled)
      end
  | Raise e => (fs, Raise e)
  | Unmodelled => (fs, Unmodelled)
  end.

(** ['Attribute.%d.Name' % index] and ['Attribute.%d.Value' % index] *)
Definition attribute_key (index : nat) (field : string) : string :=
  "Attribute." +:+ pretty index +:+ "." +:+ field.

(** The [while 1] loop of [put_attributes]; it leaves at the first index
    without a name, after at most one round per entry of [kwargs]. *)
Fixpoint decode_loop (fuel : nat) (kwargs : gmap string string) (index : nat)
    (attributes : gmap string string) : outcome (gmap string string) :=
  match fuel with
  | 0 => Unmodelled
  | S fuel' =>
      match kwargs !! attribute_key index "Name" with
      | None => Return attributes
      | Some name =>
          match kwargs !! attribute_key index "Value" with
          | None => Raise KeyError
          | Some value =>
              decode_loop fuel' kwargs (S index) (<[name := value]> attributes)
          end
      end
  end.

Definition decode_attributes (kwargs : gmap string string)
    : outcome (gmap string string) :=
  decode_loop (S (size kwargs)) kwargs 0 ∅.

(** [attributes.keys()] after [sort()]. *)
Definition sorted_keys (attributes : gmap string string) : list string :=
  merge_sort String.le (map_to_list attributes).*1.

(** [value_list]: the item name, then [attributes[key]] for each key. *)
Definition value_list (ItemName : string) (attributes : gmap string string)
    (keys : list string) : list sqlval :=
  SqlText ItemName :: ((λ key, SqlText (attributes !!! key)) <$> keys).

(** The part of [put_attributes] after the decoding of [kwargs]. *)
Definition store_attributes (fs : datadir) (DomainName ItemName : string)
    (attributes : gmap string string) : datadir * outcome () :=
  if bool_decide (size attributes = 0) then (fs, Return ())
  else
    match connect fs DomainName with
    | Return (fs', db) =>
        let keys := sorted_keys attributes in
        match create_table_if_not_exists ("sdbkey" :: keys) db with
        | Return db1 =>
            match insert_values (value_list ItemName attributes keys) db1 with
            | Return db2 => (<[DomainName := db2]> fs', Return ())
            | Raise e => (<[DomainName := db1]> fs', Raise e)
            | Unmodelled => (<[DomainName := db1]> fs', Unmodelled)
            end
        | Raise e => (fs', Raise e)
        | Unmodelled => (fs', Unmodelled)
        end
    | Raise e => (fs, Raise e)
    | Unmodelled => (fs, Unmodelled)
    end.

Definition put_attributes (fs : datadir) (DomainName ItemName : string)
    (kwargs : gmap string string) : datadir * outcome () :=
  match decode_attributes kwargs with
  | Return attributes => store_attributes fs DomainName ItemName attributes
  | Raise e => (fs, Raise e)
  | Unmodelled => (fs, Unmodelled)
  end.

(** [for i in xrange(len(columns)): attrs[columns[i]] = row[i]], with the
    [continue] of [get_attributes] on the columns in [skip]. A row shorter
    than the column list raises at the first column it cannot serve. *)
Fixpoint row_attrs (skip : string → bool) (cols : list string)
    (row : list sqlval) (attrs : gmap string sqlval)
    : outcome (gmap string sqlval) :=
  match cols with
  | [] => Return attrs
  | c :: cols' =>
      if skip c then row_attrs skip cols' (tail row) attrs
      else match row with
           | [] => Raise IndexError
           | v :: row' => row_attrs skip cols' row' (<[c := v]> attrs)
           end
  end.

Definition is_sdbkey (c : string) : bool := bool_decide (c = "sdbkey").

Definition get_attributes (fs : datadir) (DomainName ItemName : string)
    : datadir * outcome (gmap string sqlval) :=
  match connect fs DomainName with
  | Return (fs', db) =>
      (fs',
       fetched ← select_where_sdbkey ItemName db;
       match fetched with
       | [] => Return ∅
       | row :: _ => row_attrs is_sdbkey (table_info db) row ∅
       end)
  | Raise e => (fs, Raise e)
  | Unmodelled => (fs, Unmodelled)
  end.

(** The pattern of [select_items]:
    (select|SELECT).*(from|FROM)\s Q{0,1}([a-zA-Z_0-9]+)Q{0,1}\s.*
    with Q the class of the three quote characters. [from_clause] is its
    part from the second group on. *)
Definition from_clause : regex :=
  Cat (Group 2 (Alt (Lit (chars "from")) (Lit (chars "FROM"))))
 (Cat (Class space)
 (Cat (Repeat quote 0 (Some 1))
 (Cat (Group 3 (Repeat word 1 None))
 (Cat (Repeat quote 0 (Some 1))
 (Cat (Class space)
      (Repeat dot 0 None)))))).

Definition selectre : regex :=
  Cat (Group 1 (Alt (Lit (chars "select")) (Lit (chars "SELECT"))))
 (Cat (Repeat dot 0 None)
      from_clause).

(** [r.match(SelectExpression).groups()[2]], when there is a match. *)
Definition select_domain (SelectExpression : string) : option string :=
  group 3 <$> re_match selectre SelectExpression.

(** The [for row in query_results] loop of [select_items]. *)
Fixpoint rows_to_items (cols : list string) (query_results : list (list sqlval))
    : outcome (list (gmap string sqlval)) :=
  match query_results with
  | [] => Return []
  | row :: rest =>
      attrs ← row_attrs (λ _, false) cols row ∅;
      results ← rows_to_items cols rest;
      Return (attrs :: results)
  end.

(** The part of [select_items] after the domain name is known. *)
Definition run_select (execute : engine) (fs : datadir)
    (DomainName query : string)
    : datadir * outcome (list (gmap string sqlval)) :=
  match connect fs DomainName with
  | Return (fs', db) =>
      (fs',
       query_results ← execute query db;
       rows_to_items (table_info db) query_results)
  | Raise e => (fs, Raise e)
  | Unmodelled => (fs, Unmodelled)
  end.

Definition select_items (execute : engine) (fs : datadir)
    (SelectExpression : string)
    : datadir * outcome (list (gmap string sqlval)) :=
  match select_domain SelectExpression with
  | None => (fs, Raise AttributeError)
  | Some DomainName =>
      run_select execute fs DomainName
        (replace SelectExpression DomainName "datatable")
  end.

(** ** A small engine

    The queries [SELECT * FROM datatable] and
    [SELECT c1,...,cn FROM datatable] over existing columns, words
    separated by white space; everything else is left to other engines,
    also the names that sqlite resolves without a column of that name. *)

Definition implicit_column (name : string) : bool :=
  bool_decide (lowercase name ∈ ["rowid"; "oid"; "_rowid_"; "true"; "false"]).

Fixpoint split_go (sep : ascii) (cur s : list ascii) : list (list ascii) :=
  match s with
  | [] => [reverse cur]
  | c :: s' =>
      if same sep c then reverse cur :: split_go sep [] s'
      else split_go sep (c :: cur) s'
  end.

Definition split (sep : ascii) (s : string) : list string :=
  text <$> split_go sep [] (chars s).

Definition project (idxs : list nat) (row : list sqlval) : list sqlval :=
  (λ i, default SqlNull (row !! i)) <$> idxs.

Definition simple_select : engine := λ query db,
  match String.words query with
  | [kw; cols; kw'; tbl] =>
      if bool_decide (lowercase kw = "select")
         && bool_decide (lowercase kw' = "from")
         && bool_decide (lowercase tbl = "datatable")
      then
        match db with
        | None => Raise OperationalError
        | Some t =>
            if bool_decide (cols = "*") then Return (rows t)
            else
              let names := split ","%char cols in
              if forallb sql_identifier names
                 && negb (existsb implicit_column names) then
                match mapM (λ c, column_index c (columns t)) names with
                | Some idxs => Return (project idxs <$> rows t)
                | None => Raise OperationalError
                end
              else Unmodelled
        end
      else Unmodelled
  | _ => Unmodelled
  end.


(** ** Vocabulary of the statements *)

(** The database of a domain: what a connection to it finds. *)
Definition store (fs : datadir) (DomainName : string) : database :=
  default None (fs !! DomainName).

(** Attribute names that sqlite reads as plain column names. *)
Definition plain_names (keys : list string) : Prop :=
  Forall (λ key, sql_identifier key = true) keys.


(** ** The reach of the model

    The file system and sqlite set limits that the definitions above do
    not follow; the statements below are made within them.

    A file name has at most [NAME_MAX] bytes. sqlite changes a database
    through a rollback journal, the file [<name>-journal] beside it: its
    name has to fit as well, or no table can be made, and a file of that
    name found in the directory is taken for a journal and can be removed
    when a statement runs on [<name>]. *)
Definition NAME_MAX : nat := 255.

Definition journal (DomainName : string) : string :=
  DomainName +:+ "-journal".

(** A store that the model follows through a call. *)
Definition in_reach (fs : datadir) (DomainName : string) : Prop :=
  path_component DomainName = true
  ∧ (String.length (journal DomainName) ≤ NAME_MAX)%nat
  ∧ fs !! journal DomainName = None.

Global Instance in_reach_dec fs DomainName : Decision (in_reach fs DomainName).
Proof. unfold in_reach. apply _. Defined.

(** The text of the statement that makes the table, as [put_attributes]
    builds it: [table_info] is cut by its last two characters. *)
Definition table_info_text (sorted_keys : list string) : string :=
  foldl (λ table_info key, table_info +:+ key +:+ " text, ")
    "sdbkey text, " sorted_keys.

Definition create_table_query (sorted_keys : list string) : string :=
  let table_info := chars (table_info_text sorted_keys) in
  "create table if not exists datatable ("
  +:+ text (take (length table_info - 2) table_info) +:+ ")".

(** sqlite's limits on the variables and on the length of a statement and
    on the length of a value, by their defaults in the releases of the
    program's time; the first also keeps a table below the limit of 2000
    columns. *)
Definition SQLITE_MAX_VARIABLE_NUMBER : nat := 999.
Definition SQLITE_MAX_SQL_LENGTH : N := 1000000.
Definition SQLITE_MAX_LENGTH : N := 1000000000.

(** A value that sqlite3 binds and returns as it is: ASCII without the
    NUL character (Python 2's sqlite3 refuses other byte strings and cuts
    a text at a NUL), within the limit of length. *)
Definition bound_text (s : string) : Prop :=
  Forall (λ c, (0 < nat_of_ascii c < 128)%nat) (chars s)
  ∧ (N.of_nat (String.length s) ≤ SQLITE_MAX_LENGTH)%N.

Global Instance bound_text_dec s : Decision (bound_text s).
Proof. unfold bound_text. apply _. Defined.

(** A put of [attributes] for [ItemName] that stays within the limits:
    one variable for each value of the row, the statement text, the key
    and the values. *)
Definition within_limits (ItemName : string) (attributes : gmap string string)
    : Prop :=
  (S (size attributes) ≤ SQLITE_MAX_VARIABLE_NUMBER)%nat
  ∧ (N.of_nat (String.length (create_table_query (sorted_keys attributes)))
     ≤ SQLITE_MAX_SQL_LENGTH)%N
  ∧ bound_text ItemName
  ∧ map_Forall (λ _ value, bound_text value) attributes.

Global Instance within_limits_dec ItemName attributes :
  Decision (within_limits ItemName attributes).
Proof. unfold within_limits. apply _. Defined.

(** A call of [put_attributes] that the model follows: it stops before
    the store is opened, or it opens a store in reach with plain attribute
    names and within the limits. *)
Definition put_in_reach (fs : datadir) (DomainName ItemName : string)
    (kwargs : gmap string string) : Prop :=
  ∀ attributes,
    decode_attributes kwargs = Return attributes → attributes ≠ ∅ →
    in_reach fs DomainName
    ∧ plain_names (sorted_keys attributes)
    ∧ within_limits ItemName attributes.

(** The directories that calls in reach lead to from the empty one. Every
    table of such a directory was made by a put of plain attribute names,
    which declares all its columns as text: the tables of the model stand
    for these. *)
Inductive reachable : datadir → Prop :=
  | reach_empty : reachable ∅
  | reach_create_domain fs DomainName :
      reachable fs → (String.length DomainName ≤ NAME_MAX)%nat →
      reachable (create_domain fs DomainName).1
  | reach_delete_domain fs DomainName :
      reachable fs → has_separator DomainName = false →
      reachable (delete_domain fs DomainName).1
  | reach_delete_attributes fs DomainName ItemName :
      reachable fs → in_reach fs DomainName → bound_text ItemName →
      reachable (delete_attributes fs DomainName ItemName).1
  | reach_put_attributes fs DomainName ItemName kwargs :
      reachable fs → put_in_reach fs DomainName ItemName kwargs →
      reachable (put_attributes fs DomainName ItemName kwargs).1
  | reach_get_attributes fs DomainName ItemName :
      reachable fs → in_reach fs DomainName → bound_text ItemName →
      reachable (get_attributes fs DomainName ItemName).1
  | reach_select_items (execute : engine) fs SelectExpression :
      reachable fs →
      (∀ DomainName, select_domain SelectExpression = Some DomainName →
                     in_reach fs DomainName) →
      reachable (select_items execute fs SelectExpression).1.

(** ** Vocabulary of the select expressions *)

Definition select_keyword (kw : list ascii) : Prop :=
  kw = chars "select" ∨ kw = chars "SELECT".
Definition from_keyword (kw : list ascii) : Prop :=
  kw = chars "from" ∨ kw = chars "FROM".

(** Nothing, or one quote character. *)
Definition optional_quote (q : list ascii) : Prop :=
  q = [] ∨ ∃ c, q = [c] ∧ quote c = true.

(** A non-empty run of letters, digits and underscores. *)
Definition domain_token (tok : list ascii) : Prop :=
  tok ≠ [] ∧ Forall (λ c, word c = true) tok.

(** [kw w1 q1 tok q2 w2]: the keyword, one white space, the token between
    optional quotes, one white space. *)
Definition from_clause_text (kw : list ascii) (w1 : ascii)
    (q1 tok q2 : list ascii) (w2 : ascii) : list ascii :=
  kw ++ w1 :: q1 ++ tok ++ q2 ++ [w2].

Definition is_from_clause (kw : list ascii) (w1 : ascii)
    (q1 tok q2 : list ascii) (w2 : ascii) : Prop :=
  from_keyword kw ∧ space w1 = true ∧ optional_quote q1 ∧ domain_token tok
  ∧ optional_quote q2 ∧ space w2 = true.

(** No [from] or [FROM] starts after the first character of [s]. *)
Definition no_later_from (s : list ascii) : Prop :=
  ∀ i kw, (0 < i)%nat → from_keyword kw → ¬ kw `prefix_of` drop i s.

(** [no_later_from], computed. *)
Definition starts_from (s : list ascii) : bool :=
  bool_decide (chars "from" `prefix_of` s)
  || bool_decide (chars "FROM" `prefix_of` s).
Definition no_later_fromb (s : list ascii) : bool :=
  forallb (λ i, negb (starts_from (drop i s))) (seq 1 (length s)).

(** No FROM clause starts after the first character of [s]. *)
Definition no_later_clause (s : list ascii) : Prop :=
  ∀ i kw w1 q1 tok q2 w2 rest,
    (0 < i)%nat → is_from_clause kw w1 q1 tok q2 w2 →
    drop i s ≠ from_clause_text kw w1 q1 tok q2 w2 ++ rest.


(** [old] occurs in [s] at offset [i]. *)
Definition occurs_at (old s : list ascii) (i : nat) : Prop :=
  old `prefix_of` drop i s.


(** What the pattern does after the keyword of the clause, written out. *)
Definition after_from (g : captures)
    (k : nat → list ascii → captures → option captures)
    (pos : nat) (s : list ascii) : option captures :=
  match s with
  | c :: s1 =>
      if space c then
        rep quote 0 (Some 1%nat) (S pos) s1 (λ pos2 s2,
          rep word 1 None pos2 s2 (λ pos3 s3,
            rep quote 0 (Some 1%nat) pos3 s3 (λ pos4 s4,
              match s4 with
              | c' :: s5 =>
                  if space c' then
                    rep dot 0 None (S pos4) s5 (λ pos6 s6,
                      k pos6 s6 (<[3%nat := take (pos3 - pos2) s2]> g))
                  else None
              | [] => None
              end)))
      else None
  | [] => None
  end.

(** ** Sample data *)

(** A directory of [n] empty domains [domain0], [domain1], ... *)
Definition numbered_domains (n : nat) : datadir :=
  list_to_map ((λ i, ("domain" +:+ pretty i, None)) <$> seq 0 n).

(** Request parameters of some puts. *)
Definition color_red : gmap string string :=
  {[ "Attribute.0.Name" := "color"; "Attribute.0.Value" := "red" ]}.
Definition size_large : gmap string string :=
  {[ "Attribute.0.Name" := "size"; "Attribute.0.Value" := "large" ]}.
Definition color_red_size_large : gmap string string :=
  {[ "Attribute.0.Name" := "color"; "Attribute.0.Value" := "red";
     "Attribute.1.Name" := "size"; "Attribute.1.Value" := "large" ]}.

(** The directory after [color_red] was put for [item1] in the domain [D]
    of an empty directory. *)
Definition after_color_red : datadir :=
  {[ "D" := Some (Table ["sdbkey"; "color"]
                    [[SqlText "item1"; SqlText "red"]]) ]}.

(** The name [abc] followed by a newline. *)
Definition abc_newline : string := "abc" +:+ String newline EmptyString.

Global Instance valid_name_dec name : Decision (valid_name name).
Proof. unfold valid_name. apply _. Defined.

(** ** The batch call *)

(** [key.startswith(prefix)] *)
Definition startswith (key prefix : string) : bool :=
  bool_decide (chars prefix `prefix_of` chars key).

(** ['Item.%d' % index] *)
Definition item_prefix (index : nat) : string := "Item." +:+ pretty index.

(** ['Item.%d.ItemName' % index] *)
Definition item_name_key (index : nat) : string :=
  item_prefix index +:+ ".ItemName".

(** [key.replace('Item.%d.' % index, '')] *)
Definition item_rename (index : nat) (key : string) : string :=
  replace key (item_prefix index +:+ ".") EmptyString.

(** The entries the [for key in kwargs] loop of [batch_put_attributes]
    writes into [attributes], in the order of the iteration. *)
Definition item_entries (index : nat) (kwargs : gmap string string)
    : list (string * string) :=
  (λ kv, (item_rename index kv.1, kv.2))
    <$> filter (λ kv, startswith kv.1 (item_prefix index) = true)
          (map_to_list kwargs).

(** The dictionary [attributes] of one round. When two keys are renamed to
    the same name the order of the dictionary decides, which is not
    followed. *)
Definition item_attributes (index : nat) (kwargs : gmap string string)
    : outcome (gmap string string) :=
  let entries := item_entries index kwargs in
  if bool_decide (NoDup entries.*1) then Return (list_to_map entries)
  else Unmodelled.

(** The call [put_attributes(DomainName, **attributes)]: the entry
    [ItemName] of the dictionary is the second parameter, the others are
    the keyword arguments. Python's TypeError for a dictionary with
    [DomainName], or without [ItemName], is not followed. *)
Definition call_put_attributes (fs : datadir) (DomainName : string)
    (attributes : gmap string string) : datadir * outcome () :=
  match attributes !! "DomainName", attributes !! "ItemName" with
  | None, Some ItemName =>
      put_attributes fs DomainName ItemName (delete "ItemName" attributes)
  | _, _ => (fs, Unmodelled)
  end.

(** The [while 1] loop of [batch_put_attributes], which leaves at the
    first index without an item name. *)
Fixpoint batch_loop (fuel : nat) (fs : datadir) (DomainName : string)
    (kwargs : gmap string string) (index : nat) : datadir * outcome () :=
  match fuel with
  | 0 => (fs, Unmodelled)
  | S fuel' =>
      match kwargs !! item_name_key index with
      | None => (fs, Return ())
      | Some _ =>
          match item_attributes index kwargs with
          | Return attributes =>
              match call_put_attributes fs DomainName attributes with
              | (fs', Return _) =>
                  batch_loop fuel' fs' DomainName kwargs (S index)
              | (fs', Raise e) => (fs', Raise e)
              | (fs', Unmodelled) => (fs', Unmodelled)
              end
          | Raise e => (fs, Raise e)
          | Unmodelled => (fs, Unmodelled)
          end
      end
  end.

Definition batch_put_attributes (fs : datadir) (DomainName : string)
    (kwargs : gmap string string) : datadir * outcome () :=
  batch_loop (S (size kwargs)) fs DomainName kwargs 0.

(** ** The dispatcher *)

(** What [index] hands to [render_to_string]: the template and its
    parameters. The rendering itself (the template files, the request id)
    is outside this development. *)
Inductive params : Type :=
  | NoParams
  | DomainList (domain_list : list string)
  | Attrs (attrs : gmap string sqlval)
  | Items (items : list (gmap string sqlval))
  | Exception (e : exn).

Inductive response : Type :=
  | Rendered (template_name : string) (p : params)
  | Whatever.

(** [kwargs[key]] *)
Definition param (kwargs : gmap string string) (key : string)
    : outcome string :=
  match kwargs !! key with
  | Some v => Return v
  | None => Raise KeyError
  end.

(** The body of the [try] of [index]. The calls of [put_attributes]
    and [batch_put_attributes] with [kwargs] unpacked take their named
    parameters out of [kwargs]; Python's TypeError when one is missing is not followed. *)
Definition dispatch (execute : engine) (fs : datadir) (Action : string)
    (kwargs : gmap string string) : datadir * outcome response :=
  if bool_decide (Action = "CreateDomain") then
    match param kwargs "DomainName" with
    | Return DomainName =>
        let r := create_domain fs DomainName in
        (r.1, _ ← r.2; Return (Rendered "CreateDomain.xml" NoParams))
    | Raise e => (fs, Raise e)
    | Unmodelled => (fs, Unmodelled)
    end
  else if bool_decide (Action = "DeleteDomain") then
    match param kwargs "DomainName" with
    | Return DomainName =>
        let r := delete_domain fs DomainName in
        (r.1, _ ← r.2; Return (Rendered "DeleteDomain.xml" NoParams))
    | Raise e => (fs, Raise e)
    | Unmodelled => (fs, Unmodelled)
    end
  else if bool_decide (Action = "ListDomains") then
    (fs, Return (Rendered "ListDomains.xml" (DomainList (list_domains fs))))
  else if bool_decide (Action = "DeleteAttributes") then
    match param kwargs "DomainName", param kwargs "ItemName" with
    | Return DomainName, Return ItemName =>
        let r := delete_attributes fs DomainName ItemName in
        (r.1, _ ← r.2; Return (Rendered "DeleteAttributes.xml" NoParams))
    | Return _, Raise e => (fs, Raise e)
    | Raise e, _ => (fs, Raise e)
    | _, _ => (fs, Unmodelled)
    end
  else if bool_decide (Action = "PutAttributes") then
    match kwargs !! "DomainName", kwargs !! "ItemName" with
    | Some DomainName, Some ItemName =>
        let r := put_attributes fs DomainName ItemName
                   (delete "DomainName" (delete "ItemName" kwargs)) in
        (r.1, _ ← r.2; Return (Rendered "PutAttributes.xml" NoParams))
    | _, _ => (fs, Unmodelled)
    end
  else if bool_decide (Action = "GetAttributes") then
    match param kwargs "DomainName", param kwargs "ItemName" with
    | Return DomainName, Return ItemName =>
        let r := get_attributes fs DomainName ItemName in
        (r.1, attibutes ← r.2;
              Return (Rendered "GetAttributes.xml" (Attrs attibutes)))
    | Return _, Raise e => (fs, Raise e)
    | Raise e, _ => (fs, Raise e)
    | _, _ => (fs, Unmodelled)
    end
  else if bool_decide (Action = "BatchPutAttributes") then
    match kwargs !! "DomainName" with
    | Some DomainName =>
        let r := batch_put_attributes fs DomainName
                   (delete "DomainName" kwargs) in
        (r.1, _ ← r.2; Return (Rendered "BatchPutAttributes.xml" NoParams))
    | None => (fs, Unmodelled)
    end
  else if bool_decide (Action = "Select") then
    match param kwargs "SelectExpression" with
    | Return SelectExpression =>
        let r := select_items execute fs SelectExpression in
        (r.1, items ← r.2; Return (Rendered "Select.xml" (Items items)))
    | Raise e => (fs, Raise e)
    | Unmodelled => (fs, Unmodelled)
    end
  else (fs, Return Whatever).

(** [index]: an [AWSErrorException] of the body becomes the error
    response; every other exception leaves [index]. *)
Definition index (execute : engine) (fs : datadir) (Action : string)
    (kwargs : gmap string string) : datadir * outcome response :=
  match dispatch execute fs Action kwargs with
  | (fs', Raise (AWSErrorException error_code error_message)) =>
      (fs', Return (Rendered "ErrorResponse.xml"
                      (Exception (AWSErrorException error_code error_message))))
  | r => r
  end.

(** ** Vocabulary of the directory *)

(** The names [create_domain] lets through: the valid ones, and a valid
    one followed by a newline. *)
Definition accepted_name (name : string) : Prop :=
  valid_name name ∨ ∃ t, chars name = chars t ++ [newline] ∧ valid_name t.

Definition text_cell (v : sqlval) : Prop := ∃ s, v = SqlText s.

(** A table as the puts make it: the key column first and at least one
    more, plain names that differ without regard to case, and rows of
    texts, one for each column. *)
Definition table_ok (t : table) : Prop :=
  (∃ names, columns t = "sdbkey" :: names ∧ names ≠ [])
  ∧ plain_names (columns t)
  ∧ NoDup (lowercase <$> columns t)
  ∧ Forall (λ row, length row = length (columns t) ∧ Forall text_cell row)
      (rows t).

(** Every file is named by a file name and holds no table or a good one. *)
Definition directory_ok (fs : datadir) : Prop :=
  ∀ name db, fs !! name = Some db →
    path_component name = true ∧ ∀ t, db = Some t → table_ok t.

(** Every file has a name within the limit of length, and a file with a
    table has room for the name of its journal. *)
Definition names_fit (fs : datadir) : Prop :=
  ∀ name db, fs !! name = Some db →
    (String.length name ≤ NAME_MAX)%nat
    ∧ (is_Some db → (String.length (journal name) ≤ NAME_MAX)%nat).

(** [fs'] differs from [fs] at most in the file [DomainName]. *)
Definition touches_only (DomainName : string) (fs fs' : datadir) : Prop :=
  ∀ other, other ≠ DomainName → fs' !! other = fs !! other.

(** [old] occurs in [s] at none of the offsets below [n], computed. *)
Definition no_occurrence_below (old s : list ascii) (n : nat) : bool :=
  forallb (λ i, negb (bool_decide (old `prefix_of` drop i s))) (seq 0 n).
(** * Properties *)

(** ** Greedy repetition *)

Section rep.
Context {R : Type} (p : ascii → bool).
Implicit Types (k : nat → list ascii → option R) (l s : list ascii).

Lemma rep_Some lo hi pos s k r :
  rep p lo hi pos s k = Some r →
  ∃ l s', s = l ++ s' ∧ Forall (λ c, p c = true) l ∧ (lo ≤ length l)%nat ∧
          within hi (length l) ∧ k (pos + length l)%nat s' = Some r.
Proof.
  revert lo hi pos. induction s as [|c s IH]; intros lo hi pos; simpl.
  - destruct lo; [|done]. intros Hk. exists [], []. simpl.
    rewrite Nat.add_0_r. split_and!; auto. destruct hi; simpl; lia.
  - assert (Hstop : match lo with 0%nat => k pos (c :: s) | S _ => None end = Some r →
      ∃ l s', c :: s = l ++ s' ∧ Forall (λ c, p c = true) l ∧ (lo ≤ length l)%nat ∧
          within hi (length l) ∧ k (pos + length l)%nat s' = Some r).
    { destruct lo; [|done]. intros Hk. exists [], (c :: s). simpl.
      rewrite Nat.add_0_r. split_and!; auto. destruct hi; simpl; lia. }
    destruct (p c) eqn:Hp; simpl; [|done].
    destruct (can_take hi) eqn:Hhi; [|done].
    destruct (rep p (pred lo) (pred <$> hi) (S pos) s k) as [r'|] eqn:Hrec; [|done].
    intros [= ->]. apply IH in Hrec as (l & s' & -> & Hl & Hlo & Hw & Hk).
    exists (c :: l), s'. simpl. split_and!; auto.
    + lia.
    + destruct hi as [[|n]|]; simpl in *; try done. lia.
    + by rewrite <- Nat.add_succ_comm.
Qed.

Lemma rep_is_Some lo hi pos l s' k :
  Forall (λ c, p c = true) l → (lo ≤ length l)%nat → within hi (length l) →
  is_Some (k (pos + length l)%nat s') →
  is_Some (rep p lo hi pos (l ++ s') k).
Proof.
  revert lo hi pos. induction l as [|c l IH]; intros lo hi pos Hl Hlo Hhi Hk.
  - simpl in *. rewrite Nat.add_0_r in Hk. assert (lo = 0%nat) as -> by lia.
    destruct s' as [|c s']; simpl; [done|].
    destruct (p c && can_take hi); [|done].
    by destruct (rep p _ _ _ s' k).
  - apply Forall_cons in Hl as [Hc Hl]. simpl in *. rewrite Hc. simpl.
    assert (can_take hi = true) as ->.
    { destruct hi as [[|n]|]; simpl in *; try done. lia. }
    destruct (IH (pred lo) (pred <$> hi) (S pos)) as [r Hr]; auto.
    + lia.
    + destruct hi as [n|]; simpl in *; [lia|done].
    + by rewrite Nat.add_succ_comm.
    + by rewrite Hr.
Qed.



End rep.

(** ** Domain names *)

Lemma checkre_unfold name :
  re_match checkre name =
  rep name_char 3 (Some 255) 0 (chars name)
    (λ _ s', if at_end s' then Some (∅ : captures) else None).
Proof. reflexivity. Qed.

Lemma checkre_valid name : valid_name name → is_Some (re_match checkre name).
Proof.
  intros [Hchars Hlen]. rewrite checkre_unfold.
  replace (chars name) with (chars name ++ []) by apply app_nil_r.
  apply rep_is_Some; simpl; auto; lia.
Qed.

Lemma checkre_Some name m :
  re_match checkre name = Some m →
  valid_name name
  ∨ ∃ t, chars name = chars t ++ [newline] ∧ valid_name t.
Proof.
  rewrite checkre_unfold. intros (l & s' & Hs & Hl & Hlo & Hhi & Hend)%rep_Some.
  simpl in Hhi. unfold at_end in Hend.
  destruct (decide (s' = [])) as [->|Hne].
  - left. rewrite app_nil_r in Hs. unfold valid_name. rewrite Hs.
    split; [done|lia].
  - destruct (decide (s' = [newline])) as [->|Hne'].
    + right. exists (text l).
      unfold valid_name. rewrite list_ascii_of_string_of_list_ascii.
      split; [done|]. split; [done|lia].
    + rewrite !bool_decide_eq_false_2 in Hend by done. done.
Qed.

Lemma name_char_not_separator c :
  name_char c = true → (same "/"%char c || same "000"%char c) = false.
Proof.
  destruct c as [[] [] [] [] [] [] [] []]; vm_compute; congruence.
Qed.

Lemma valid_name_path_component name :
  valid_name name → path_component name = true.
Proof.
  intros [Hchars Hlen]. unfold path_component.
  apply andb_true_iff; split; apply negb_true_iff.
  - unfold has_separator. apply not_true_is_false. intros H.
    apply existsb_exists in H as (c & Hin & Hc).
    rewrite Forall_forall in Hchars. apply list_elem_of_In in Hin.
    rewrite name_char_not_separator in Hc; [done|]. by apply Hchars.
  - unfold names_directory. apply bool_decide_eq_false_2.
    intros Hin. repeat (apply elem_of_cons in Hin as [->|Hin]; [simpl in Hlen; lia|]).
    by apply elem_of_nil in Hin.
Qed.

Lemma connect_path_component fs name :
  path_component name = true →
  connect fs name =
    match fs !! name with
    | Some db => Return (fs, db)
    | None => Return (<[name := None]> fs, None)
    end.
Proof.
  unfold path_component, connect.
  intros [->%negb_true_iff ->%negb_true_iff]%andb_true_iff. done.
Qed.

(** ** The domain directory *)

Lemma list_domains_length fs : length (list_domains fs) = size fs.
Proof. unfold list_domains. by rewrite length_fmap, length_map_to_list. Qed.

Lemma list_domains_NoDup fs : NoDup (list_domains fs).
Proof. apply NoDup_fst_map_to_list. Qed.

Lemma list_domains_elem_of fs name :
  name ∈ list_domains fs ↔ is_Some (fs !! name).
Proof.
  unfold list_domains. rewrite list_elem_of_fmap. split.
  - intros ([k v] & -> & Hin). apply elem_of_map_to_list in Hin. by eexists.
  - intros [v Hv]. exists (name, v). split; [done|]. by apply elem_of_map_to_list.
Qed.

Lemma filter_eq_NoDup {A} `{EqDecision A} (x : A) (l : list A) :
  NoDup l → x ∈ l → length (filter (λ y, y = x) l) = 1%nat.
Proof.
  induction 1 as [|y l Hy Hnd IH]; [by intros ?%elem_of_nil|].
  intros Hin. rewrite filter_cons. destruct (decide (y = x)) as [->|Hne].
  - destruct (filter (λ y, y = x) l) as [|z l'] eqn:Hf; [done|].
    assert (z ∈ filter (λ y, y = x) l) as Hz by (rewrite Hf; left).
    apply list_elem_of_filter in Hz as [-> Hz]. done.
  - apply elem_of_cons in Hin as [->|Hin]; [done|]. by apply IH.
Qed.

Lemma create_domain_checked fs name :
  is_Some (re_match checkre name) → path_component name = true →
  create_domain fs name =
    if bool_decide (DOMAIN_CAP ≤ size fs)%nat then
      (fs, Raise (AWSErrorException NumberDomainsExceeded
             "Number of domains limit exceeded."))
    else match fs !! name with
         | Some _ => (fs, Return ())
         | None => (<[name := None]> fs, Return ())
         end.
Proof.
  intros [m Hm] Hpath. unfold create_domain. rewrite Hm.
  rewrite list_domains_length, connect_path_component by done.
  case_bool_decide; [done|]. by destruct (fs !! name).
Qed.

Lemma create_domain_invalid fs name :
  ¬ valid_name name →
  (∀ t, chars name = chars t ++ [newline] → ¬ valid_name t) →
  create_domain fs name =
    (fs, Raise (AWSErrorException InvalidParameterValue
           ("Value (" +:+ name +:+ ") for parameter DomainName is invalid."))).
Proof.
  intros Hinv Hnl. unfold create_domain.
  destruct (re_match checkre name) as [m|] eqn:Hm; [|done].
  apply checkre_Some in Hm as [?|(t & Ht & Hv)]; [done|]. by destruct (Hnl t).
Qed.

(** C6: for a valid fresh name, [create_domain] raises
    NumberDomainsExceeded exactly when the directory already lists 100 or
    more names, and then leaves the directory as it is; below the cap it
    creates the empty store. *)
Theorem create_domain_cap fs name :
  valid_name name → fs !! name = None →
  ((DOMAIN_CAP ≤ length (list_domains fs))%nat →
   create_domain fs name =
     (fs, Raise (AWSErrorException NumberDomainsExceeded
            "Number of domains limit exceeded.")))
  ∧ ((length (list_domains fs) < DOMAIN_CAP)%nat →
     create_domain fs name = (<[name := None]> fs, Return ()))
  ∧ ((∃ msg, (create_domain fs name).2
             = Raise (AWSErrorException NumberDomainsExceeded msg))
     ↔ (DOMAIN_CAP ≤ length (list_domains fs))%nat).
Proof.
  intros Hvalid Hfresh.
  rewrite create_domain_checked
    by auto using checkre_valid, valid_name_path_component.
  rewrite list_domains_length, Hfresh.
  case_bool_decide as Hcap; split_and!; try done; try lia.
  - split; [done|]. intros _. by eexists.
  - split; [|lia]. by intros [msg [=]].
Qed.

(** With 100 domains in the directory the next create fails and creates
    nothing. *)
Lemma create_domain_cap_witness :
  valid_name "fresh" ∧ numbered_domains 100 !! "fresh" = None
  ∧ length (list_domains (numbered_domains 100)) = 100%nat
  ∧ create_domain (numbered_domains 100) "fresh" =
      (numbered_domains 100,
       Raise (AWSErrorException NumberDomainsExceeded
                "Number of domains limit exceeded.")).
Proof.
  assert (Hv : valid_name "fresh") by (apply (bool_decide_unpack _); vm_compute; exact I).
  assert (Hf : numbered_domains 100 !! "fresh" = None) by (vm_compute; reflexivity).
  assert (Hl : length (list_domains (numbered_domains 100)) = 100%nat)
    by (vm_compute; reflexivity).
  split_and!; [exact Hv|exact Hf|exact Hl|].
  apply (create_domain_cap (numbered_domains 100) "fresh" Hv Hf).
  rewrite Hl. unfold DOMAIN_CAP. lia.
Defined.

(** C4, as amended: for a valid name and a directory below the cap,
    [create_domain] on an existing domain raises nothing and leaves the
    directory as it is, and after two calls the name is listed once. *)
Theorem create_domain_idempotent_below_cap fs name :
  valid_name name → (length (list_domains fs) < DOMAIN_CAP)%nat →
  (is_Some (fs !! name) → create_domain fs name = (fs, Return ()))
  ∧ (let fs1 := (create_domain fs name).1 in
     let fs2 := (create_domain fs1 name).1 in
     length (filter (λ d, d = name) (list_domains fs2)) = 1%nat).
Proof.
  intros Hvalid Hcap. rewrite list_domains_length in Hcap.
  assert (Hcreate : ∀ fs', create_domain fs' name = _)
    by (intros fs'; apply create_domain_checked;
        auto using checkre_valid, valid_name_path_component).
  split.
  - intros [db Hdb]. rewrite Hcreate, Hdb.
    by rewrite bool_decide_eq_false_2 by lia.
  - simpl. rewrite (Hcreate fs), bool_decide_eq_false_2 by lia.
    assert (Hin : ∀ fs1, is_Some (fs1 !! name) →
      length (filter (λ d, d = name)
                (list_domains (create_domain fs1 name).1)) = 1%nat).
    { intros fs1 [db Hdb]. rewrite Hcreate, Hdb.
      apply filter_eq_NoDup; [apply list_domains_NoDup|].
      apply list_domains_elem_of. case_bool_decide; simpl; by eexists. }
    destruct (fs !! name) as [db|] eqn:Hdb; simpl; apply Hin.
    + by eexists.
    + rewrite lookup_insert_eq. by eexists.
Qed.

Lemma create_domain_idempotent_below_cap_witness :
  create_domain {[ "abc" := None ]} "abc" = ({[ "abc" := None ]}, Return ())
  ∧ length (filter (λ d, d = "abc")
      (list_domains (create_domain (create_domain ∅ "abc").1 "abc").1)) = 1%nat.
Proof.
  assert (Hv : valid_name "abc")
    by (apply (bool_decide_unpack _); vm_compute; exact I).
  split.
  - apply (create_domain_idempotent_below_cap {[ "abc" := None ]} "abc" Hv).
    + vm_compute. lia.
    + rewrite lookup_singleton_eq. by eexists.
  - apply (create_domain_idempotent_below_cap ∅ "abc" Hv). vm_compute. lia.
Defined.

(** C4 as stated fails: in a directory of 100 domains, creating one of
    them again raises NumberDomainsExceeded. *)
Lemma create_domain_existing_at_cap :
  valid_name "domain0"
  ∧ "domain0" ∈ list_domains (numbered_domains 100)
  ∧ create_domain (numbered_domains 100) "domain0" =
      (numbered_domains 100,
       Raise (AWSErrorException NumberDomainsExceeded
                "Number of domains limit exceeded."))
  ∧ (create_domain (numbered_domains 100) "domain0").2 ≠ Return ().
Proof.
  assert (Hv : valid_name "domain0")
    by (apply (bool_decide_unpack _); vm_compute; exact I).
  split_and!; [done| |..].
  - apply list_domains_elem_of. vm_compute. by eexists.
  - rewrite create_domain_checked
      by auto using checkre_valid, valid_name_path_component.
    reflexivity.
  - rewrite create_domain_checked
      by auto using checkre_valid, valid_name_path_component.
    vm_compute. discriminate.
Qed.

(** C5: the name [abc] followed by a newline holds a character outside
    the class, yet [create_domain] accepts it and creates its store. *)
Theorem create_domain_trailing_newline :
  ¬ valid_name abc_newline
  ∧ newline ∈ chars abc_newline ∧ name_char newline = false
  ∧ create_domain ∅ abc_newline = ({[ abc_newline := None ]}, Return ()).
Proof.
  split_and!.
  - apply (bool_decide_eq_false_1 _). vm_compute. reflexivity.
  - vm_compute. set_solver.
  - reflexivity.
  - vm_compute. reflexivity.
Qed.

(** The same holds after any valid name. *)
Lemma create_domain_accepts_trailing_newline fs t name :
  valid_name t → chars name = chars t ++ [newline] →
  (size fs < DOMAIN_CAP)%nat →
  (create_domain fs name).2 = Return ().
Proof.
  intros [Hchars Hlen] Hname Hcap. unfold create_domain.
  assert (is_Some (re_match checkre name)) as [m ->].
  { rewrite checkre_unfold, Hname. apply rep_is_Some; simpl; auto; lia. }
  rewrite list_domains_length, bool_decide_eq_false_2 by lia.
  unfold connect.
  assert (has_separator name = false) as ->.
  { unfold has_separator. rewrite Hname. apply not_true_is_false. intros H.
    apply existsb_exists in H as (c & Hin & Hc).
    apply list_elem_of_In, elem_of_app in Hin as [Hin|Hin].
    - rewrite Forall_forall in Hchars.
      rewrite name_char_not_separator in Hc; [done|]. by apply Hchars.
    - apply list_elem_of_singleton in Hin as ->. vm_compute in Hc. done. }
  assert (names_directory name = false) as ->.
  { apply bool_decide_eq_false_2. intros Hin.
    assert (length (chars name) ≤ 2)%nat as Hle.
    { repeat (apply elem_of_cons in Hin as [->|Hin]; [simpl; lia|]).
      by apply elem_of_nil in Hin. }
    rewrite Hname, length_app in Hle. simpl in Hle. lia. }
  by destruct (fs !! name).
Qed.

(** ** Decoding of the request parameters *)

Lemma chars_app (s1 s2 : string) : chars (s1 +:+ s2) = chars s1 ++ chars s2.
Proof. induction s1 as [|c s1 IH]; [done|]. cbn. by rewrite <- IH. Qed.

Lemma chars_inj (s1 s2 : string) : chars s1 = chars s2 → s1 = s2.
Proof.
  intros H. rewrite <- (string_of_list_ascii_of_string s1),
    <- (string_of_list_ascii_of_string s2). by rewrite H.
Qed.

Global Instance attribute_key_inj field : Inj (=) (=) (λ i, attribute_key i field).
Proof.
  intros i j H. unfold attribute_key in H.
  apply (inj (String.app "Attribute.")) in H.
  apply (f_equal chars) in H. rewrite !chars_app in H.
  apply app_inv_tail in H. apply chars_inj in H. by apply (inj pretty) in H.
Qed.



(** ** The sorted attribute names *)

Lemma sorted_keys_Permutation attributes :
  sorted_keys attributes ≡ₚ (map_to_list attributes).*1.
Proof. apply merge_sort_Permutation. Qed.



Lemma sorted_keys_length attributes :
  length (sorted_keys attributes) = size attributes.
Proof.
  by rewrite sorted_keys_Permutation, length_fmap, length_map_to_list.
Qed.

Lemma sorted_keys_Sorted attributes : Sorted String.le (sorted_keys attributes).
Proof. apply Sorted_merge_sort. apply _. Qed.

Lemma value_list_length ItemName attributes keys :
  length (value_list ItemName attributes keys) = S (length keys).
Proof. unfold value_list. simpl. by rewrite length_fmap. Qed.

(** ** Rows as attribute mappings *)


Lemma row_attrs_dom skip cols row attrs m :
  row_attrs skip cols row attrs = Return m →
  dom m = dom attrs ∪ list_to_set (filter (λ c, skip c = false) cols).
Proof.
  revert row attrs. induction cols as [|c cols IH]; intros row attrs; simpl.
  - intros [= ->]. by rewrite (right_id_L ∅ (∪)).
  - rewrite filter_cons. destruct (skip c) eqn:Hc; simpl.
    + intros ->%IH. destruct (decide (true = false)); [done|]. done.
    + destruct row as [|v row]; [done|]. intros ->%IH.
      destruct (decide (false = false)); [|done].
      rewrite dom_insert_L. simpl.
      by rewrite (comm_L (∪) {[c]}), (assoc_L (∪)).
Qed.

Lemma row_attrs_lookup_other skip cols row attrs m key :
  row_attrs skip cols row attrs = Return m →
  (key ∈ cols → skip key = true) →
  m !! key = attrs !! key.
Proof.
  revert row attrs. induction cols as [|c cols IH]; intros row attrs; simpl.
  - by intros [= ->].
  - intros Hrow Hkey. destruct (skip c) eqn:Hc.
    + eapply IH; [done|]. intros ?. apply Hkey. by right.
    + destruct row as [|v row]; [done|].
      erewrite IH; [|done|intros ?; apply Hkey; by right].
      apply lookup_insert_ne. intros ->. rewrite Hkey in Hc; [done|left].
Qed.



(** ** The attribute table *)

Lemma store_lookup (fs : datadir) DomainName db :
  fs !! DomainName = Some db → store fs DomainName = db.
Proof. unfold store. by intros ->. Qed.

Lemma store_insert (fs : datadir) DomainName db :
  store (<[DomainName := db]> fs) DomainName = db.
Proof. unfold store. by rewrite lookup_insert_eq. Qed.

Lemma connect_store (fs : datadir) DomainName :
  path_component DomainName = true →
  ∃ fs', connect fs DomainName = Return (fs', store fs DomainName)
       ∧ fs' !! DomainName = Some (store fs DomainName)
       ∧ ∀ db, <[DomainName := db]> fs' = <[DomainName := db]> fs.
Proof.
  intros Hpath. rewrite connect_path_component by done. unfold store.
  destruct (fs !! DomainName) as [db|] eqn:Hdb; simpl.
  - by exists fs.
  - exists (<[DomainName := None]> fs). split_and!; [done|..].
    + apply lookup_insert_eq.
    + intros db. apply insert_insert_eq.
Qed.

Lemma plain_names_forallb keys :
  plain_names keys → forallb sql_identifier ("sdbkey" :: keys) = true.
Proof.
  intros Hplain. apply forallb_forall. intros key [<-|Hin]; [done|].
  unfold plain_names in Hplain. rewrite Forall_forall in Hplain.
  by apply Hplain, list_elem_of_In.
Qed.

Lemma decode_put_attributes fs DomainName ItemName kwargs attributes :
  decode_attributes kwargs = Return attributes →
  put_attributes fs DomainName ItemName kwargs
  = store_attributes fs DomainName ItemName attributes.
Proof. unfold put_attributes. by intros ->. Qed.

Lemma size_non_empty (attributes : gmap string string) :
  attributes ≠ ∅ → size attributes ≠ 0%nat.
Proof. intros Hne ?%map_size_empty_iff. done. Qed.

(** The first put into a domain makes the table. *)
Lemma store_attributes_first (fs : datadir) DomainName ItemName attributes :
  path_component DomainName = true → attributes ≠ ∅ →
  plain_names (sorted_keys attributes) →
  store fs DomainName = None →
  store_attributes fs DomainName ItemName attributes =
    if bool_decide (NoDup (lowercase <$> "sdbkey" :: sorted_keys attributes))
    then
      (<[DomainName :=
           Some (Table ("sdbkey" :: sorted_keys attributes)
                   [value_list ItemName attributes (sorted_keys attributes)])]> fs,
       Return ())
    else (<[DomainName := None]> fs, Raise OperationalError).
Proof.
  intros Hpath Hne%size_non_empty Hplain Hstore. unfold store_attributes.
  rewrite bool_decide_eq_false_2 by done.
  destruct (connect_store fs DomainName Hpath) as (fs' & -> & Hfs' & Hins).
  rewrite Hstore in *. unfold create_table_if_not_exists.
  rewrite plain_names_forallb by done. simpl negb. cbv iota.
  case_bool_decide as Hnd.
  - unfold insert_values. simpl columns.
    rewrite bool_decide_eq_true_2
      by (rewrite value_list_length; done).
    by rewrite Hins.
  - f_equal. rewrite <- Hins. symmetry. by apply insert_id.
Qed.

(** A put into a domain that has its table adds a row of as many values
    as there are columns, and nothing otherwise. *)
Lemma store_attributes_next (fs : datadir) DomainName ItemName attributes t :
  path_component DomainName = true → attributes ≠ ∅ →
  plain_names (sorted_keys attributes) →
  fs !! DomainName = Some (Some t) →
  store_attributes fs DomainName ItemName attributes =
    if bool_decide (S (size attributes) = length (columns t))
    then
      (<[DomainName :=
           Some (Table (columns t)
                   (rows t ++
                    [value_list ItemName attributes (sorted_keys attributes)]))]> fs,
       Return ())
    else (fs, Raise OperationalError).
Proof.
  intros Hpath Hne%size_non_empty Hplain Hfs. unfold store_attributes.
  rewrite bool_decide_eq_false_2 by done.
  rewrite connect_path_component, Hfs by done.
  unfold create_table_if_not_exists.
  rewrite plain_names_forallb by done. simpl negb. cbv iota.
  unfold insert_values.
  rewrite value_list_length, sorted_keys_length.
  case_bool_decide; [done|]. f_equal. by apply insert_id.
Qed.




(** ** The pattern of the select expressions *)

Lemma rep_always {R} p hi pos s (r : R) :
  rep p 0 hi pos s (λ _ _, Some r) = Some r.
Proof.
  revert hi pos. induction s as [|c s IH]; intros hi pos; simpl; [done|].
  destruct (p c && can_take hi); [|done]. by rewrite IH.
Qed.


Lemma exec_from_clause pos s g k :
  exec from_clause pos s g k =
  match
    (if bool_decide (chars "from" `prefix_of` s)
     then after_from (<[2%nat := take (pos + 4 - pos) s]> g) k (pos + 4) (drop 4 s)
     else None)
  with
  | Some m => Some m
  | None =>
      if bool_decide (chars "FROM" `prefix_of` s)
      then after_from (<[2%nat := take (pos + 4 - pos) s]> g) k (pos + 4) (drop 4 s)
      else None
  end.
Proof. reflexivity. Qed.





Lemma from_clause_fail pos s g k :
  ¬ chars "from" `prefix_of` s → ¬ chars "FROM" `prefix_of` s →
  exec from_clause pos s g k = None.
Proof.
  intros H1 H2. rewrite exec_from_clause.
  by rewrite !bool_decide_eq_false_2 by done.
Qed.



Lemma optional_quote_intro q :
  Forall (λ c, quote c = true) q → (length q ≤ 1)%nat → optional_quote q.
Proof.
  intros Hq Hlen. destruct q as [|c [|c' q]]; simpl in Hlen; [by left| |lia].
  right. exists c. split; [done|]. by apply Forall_cons in Hq as [? _].
Qed.

Lemma after_from_Some g pos s m :
  after_from g (λ _ _ g', Some g') pos s = Some m →
  ∃ w1 q1 tok q2 w2 rest,
    s = w1 :: q1 ++ tok ++ q2 ++ [w2] ++ rest
    ∧ space w1 = true ∧ optional_quote q1 ∧ domain_token tok
    ∧ optional_quote q2 ∧ space w2 = true
    ∧ m = <[3%nat := tok]> g.
Proof.
  unfold after_from. destruct s as [|w1 s]; [done|].
  destruct (space w1) eqn:Hw1; [|done].
  intros (q1 & s2 & -> & Hq1 & _ & Hlen1 & H2)%rep_Some.
  apply rep_Some in H2 as (tok & s3 & -> & Htok & Hlen & _ & H3).
  apply rep_Some in H3 as (q2 & s4 & -> & Hq2 & _ & Hlen2 & H4).
  destruct s4 as [|w2 s5]; [done|].
  destruct (space w2) eqn:Hw2; [|done].
  rewrite rep_always in H4. injection H4 as <-.
  exists w1, q1, tok, q2, w2, s5. split_and!; try done.
  - by apply optional_quote_intro.
  - split; [|done]. intros ->. simpl in Hlen. lia.
  - by apply optional_quote_intro.
  - do 2 f_equal. apply take_app_length'. lia.
Qed.

Lemma from_clause_Some pos s g m :
  exec from_clause pos s g (λ _ _ g', Some g') = Some m →
  ∃ kw w1 q1 tok q2 w2 rest,
    s = from_clause_text kw w1 q1 tok q2 w2 ++ rest
    ∧ is_from_clause kw w1 q1 tok q2 w2
    ∧ m = <[3%nat := tok]> (<[2%nat := kw]> g).
Proof.
  rewrite exec_from_clause. intros Hm.
  assert (∃ kw s', from_keyword kw ∧ s = kw ++ s'
    ∧ after_from (<[2%nat := kw]> g) (λ _ _ g', Some g') (pos + 4) s' = Some m)
    as (kw & s' & Hkw & -> & Hafter).
  { replace (pos + 4 - pos)%nat with 4%nat in Hm by lia.
    case_bool_decide as Hfrom.
    - destruct Hfrom as [s' ->].
      change (drop 4 (chars "from" ++ s')) with s' in Hm.
      change (take 4 (chars "from" ++ s')) with (chars "from") in Hm.
      exists (chars "from"), s'. split_and!; [by left|done|].
      by destruct (after_from _ _ _ s').
    - case_bool_decide as HFROM; [|done]. destruct HFROM as [s' ->].
      change (drop 4 (chars "FROM" ++ s')) with s' in Hm.
      change (take 4 (chars "FROM" ++ s')) with (chars "FROM") in Hm.
      exists (chars "FROM"), s'. split_and!; [by right|done|done]. }
  apply after_from_Some in Hafter
    as (w1 & q1 & tok & q2 & w2 & rest & -> & ? & ? & ? & ? & ? & ->).
  exists kw, w1, q1, tok, q2, w2, rest. split_and!; [|done..].
  unfold from_clause_text. rewrite <- !app_assoc. simpl. by rewrite <- ?app_assoc.
Qed.

Lemma exec_selectre s k :
  exec selectre 0 s ∅ k =
  match
    (if bool_decide (chars "select" `prefix_of` s)
     then rep dot 0 None 6 (drop 6 s) (λ pos' s',
            exec from_clause pos' s' (<[1%nat := take 6 s]> ∅) k)
     else None)
  with
  | Some m => Some m
  | None =>
      if bool_decide (chars "SELECT" `prefix_of` s)
      then rep dot 0 None 6 (drop 6 s) (λ pos' s',
             exec from_clause pos' s' (<[1%nat := take 6 s]> ∅) k)
      else None
  end.
Proof. reflexivity. Qed.

Lemma group_insert i tok (g : captures) : group i (<[i := tok]> g) = text tok.
Proof. unfold group. by rewrite lookup_insert_eq. Qed.

(** Whatever [select_items] takes for the domain name stands in a FROM
    clause of the expression. *)
Lemma select_domain_Some expr DomainName :
  select_domain expr = Some DomainName →
  ∃ kw cols kw' w1 q1 tok q2 w2 rest,
    chars expr = kw ++ cols ++ from_clause_text kw' w1 q1 tok q2 w2 ++ rest
    ∧ select_keyword kw ∧ Forall (λ c, dot c = true) cols
    ∧ is_from_clause kw' w1 q1 tok q2 w2
    ∧ DomainName = text tok.
Proof.
  unfold select_domain, re_match. rewrite exec_selectre.
  intros Hm.
  assert (∃ kw s' m, select_keyword kw ∧ chars expr = kw ++ s'
    ∧ rep dot 0 None 6 s' (λ pos' s'',
        exec from_clause pos' s'' (<[1%nat := kw]> ∅) (λ _ _ g, Some g)) = Some m
    ∧ DomainName = group 3 m)
    as (kw & s' & m & Hkw & Hexpr & Hrep & ->).
  { case_bool_decide as Hsel.
    - destruct Hsel as [s' Hs']. rewrite Hs' in Hm.
      change (drop 6 (chars "select" ++ s')) with s' in Hm.
      change (take 6 (chars "select" ++ s')) with (chars "select") in Hm.
      destruct (rep dot 0 None 6 s' _) as [m|] eqn:Hrep; [|done].
      injection Hm as <-. exists (chars "select"), s', m.
      split_and!; [by left|done..].
    - case_bool_decide as HSEL; [|done]. destruct HSEL as [s' Hs'].
      rewrite Hs' in Hm.
      change (drop 6 (chars "SELECT" ++ s')) with s' in Hm.
      change (take 6 (chars "SELECT" ++ s')) with (chars "SELECT") in Hm.
      destruct (rep dot 0 None 6 s' _) as [m|] eqn:Hrep; [|done].
      injection Hm as <-. exists (chars "SELECT"), s', m.
      split_and!; [by right|done..]. }
  apply rep_Some in Hrep as (cols & s'' & -> & Hcols & _ & _ & Hfrom).
  apply from_clause_Some in Hfrom
    as (kw' & w1 & q1 & tok & q2 & w2 & rest & -> & Hclause & ->).
  exists kw, cols, kw', w1, q1, tok, q2, w2, rest.
  split_and!; [done..|]. apply group_insert.
Qed.

Lemma no_later_from_check s : no_later_fromb s = true → no_later_from s.
Proof.
  unfold no_later_fromb. rewrite forallb_forall.
  intros Hall i kw Hi Hkw Hpre.
  destruct (decide (i < S (length s))%nat) as [Hlt|Hge].
  - specialize (Hall i). rewrite <- list_elem_of_In, elem_of_seq in Hall.
    specialize (Hall ltac:(lia)). apply negb_true_iff in Hall.
    unfold starts_from in Hall. apply orb_false_iff in Hall as [H1 H2].
    destruct Hkw as [-> | ->].
    + by rewrite bool_decide_eq_true_2 in H1.
    + by rewrite bool_decide_eq_true_2 in H2.
  - rewrite drop_ge in Hpre by lia. apply prefix_nil_inv in Hpre.
    by destruct Hkw as [-> | ->].
Qed.

Lemma no_later_from_clause s : no_later_from s → no_later_clause s.
Proof.
  intros Hlater i kw w1 q1 tok q2 w2 rest Hi (Hkw & _) Hdrop.
  apply (Hlater i kw Hi Hkw). rewrite Hdrop. unfold from_clause_text.
  rewrite <- app_assoc. by eexists.
Qed.



(** ** Replacement of the domain token *)

Lemma replace_go_skip old new l s :
  replace_go old new (length l) (l ++ s) = replace_go old new 0 s.
Proof.
  induction l as [|c l IH]; simpl; [|done].
  by destruct s.
Qed.

(** Without an occurrence of [old] the text stays as it is. *)
Lemma replace_go_none old new s :
  old ≠ [] → (∀ i, ¬ occurs_at old s i) → replace_go old new 0 s = s.
Proof.
  intros Hold. induction s as [|c s IH]; intros Hnone; simpl; [done|].
  rewrite bool_decide_eq_false_2 by (apply (Hnone 0%nat)).
  f_equal. apply IH. intros i. apply (Hnone (S i)).
Qed.

(** The first occurrence of [old] is replaced, and the replacement goes
    on after it. *)
Lemma replace_go_first old new a b :
  old ≠ [] →
  (∀ i, (i < length a)%nat → ¬ occurs_at old (a ++ old ++ b) i) →
  replace_go old new 0 (a ++ old ++ b) = a ++ new ++ replace_go old new 0 b.
Proof.
  intros Hold. induction a as [|c a IH]; intros Hnone.
  - destruct old as [|c old]; [done|]. simpl.
    rewrite bool_decide_eq_true_2 by (by eexists).
    rewrite Nat.sub_0_r. by rewrite replace_go_skip.
  - simpl. rewrite bool_decide_eq_false_2
      by (apply (Hnone 0%nat); simpl; lia).
    f_equal. apply IH. intros i Hi. apply (Hnone (S i)). simpl. lia.
Qed.

Lemma replace_unfold s old new :
  old ≠ EmptyString →
  replace s old new = text (replace_go (chars old) (chars new) 0 (chars s)).
Proof. unfold replace. destruct old; [done|]. done. Qed.





(** ** The query translator *)





(** Closed decidable statements, by evaluation. *)
Ltac by_computation := apply (bool_decide_unpack _); vm_compute; exact I.

(** ** Directories in reach *)

Lemma put_in_reach_intro (fs : datadir) DomainName ItemName kwargs attributes :
  decode_attributes kwargs = Return attributes →
  in_reach fs DomainName → plain_names (sorted_keys attributes) →
  within_limits ItemName attributes →
  put_in_reach fs DomainName ItemName kwargs.
Proof.
  intros Hdecode Hreach Hplain Hlimits attributes' Hdecode' _.
  by assert (attributes' = attributes) as -> by congruence.
Qed.

Lemma after_color_red_reachable : reachable after_color_red.
Proof.
  assert (Hput : (put_attributes ∅ "D" "item1" color_red).1 = after_color_red)
    by (vm_compute; reflexivity).
  rewrite <- Hput. apply reach_put_attributes; [apply reach_empty|].
  apply (put_in_reach_intro _ _ _ _ {[ "color" := "red" ]});
    [vm_compute; reflexivity|by_computation..].
Qed.

(** ** Puts *)

Lemma put_color_red :
  put_attributes ∅ "D" "item1" color_red = (after_color_red, Return ()).
Proof. vm_compute. reflexivity. Qed.





(** ** Reading back *)

Lemma column_index_head name cols : column_index name (name :: cols) = Some 0%nat.
Proof. simpl. by rewrite bool_decide_eq_true_2. Qed.

Lemma sdbkey_not_attribute keys :
  NoDup (lowercase <$> "sdbkey" :: keys) → "sdbkey" ∉ keys.
Proof.
  rewrite fmap_cons. intros [Hnotin _]%NoDup_cons Hin. apply Hnotin.
  change (lowercase "sdbkey") with (lowercase "sdbkey").
  apply list_elem_of_fmap. by exists "sdbkey".
Qed.






(** ** Selected rows *)

Lemma word_not_separator c :
  word c = true → (same "/"%char c || same "000"%char c) = false.
Proof. destruct c as [[] [] [] [] [] [] [] []]; vm_compute; congruence. Qed.

Lemma domain_token_path_component tok :
  domain_token tok → path_component (text tok) = true.
Proof.
  intros [Hne Hword]. unfold path_component.
  apply andb_true_iff; split; apply negb_true_iff.
  - unfold has_separator. rewrite list_ascii_of_string_of_list_ascii.
    apply not_true_is_false. intros H.
    apply existsb_exists in H as (c & Hin & Hc).
    rewrite Forall_forall in Hword. apply list_elem_of_In in Hin.
    rewrite word_not_separator in Hc; [done|]. by apply Hword.
  - apply bool_decide_eq_false_2. intros Hin.
    destruct tok as [|c tok]; [done|]. apply Forall_cons in Hword as [Hc _].
    apply elem_of_cons in Hin as [Heq|Hin]; [simpl in Heq; discriminate|].
    do 2 (apply elem_of_cons in Hin as [Heq|Hin];
          [simpl in Heq; injection Heq as -> _; vm_compute in Hc; done|]).
    by apply elem_of_nil in Hin.
Qed.

Lemma select_domain_path_component expr DomainName :
  select_domain expr = Some DomainName → path_component DomainName = true.
Proof.
  intros (kw & cols & kw' & w1 & q1 & tok & q2 & w2 & rest & _ & _ & _
          & (_ & _ & _ & Htok & _) & ->)%select_domain_Some.
  by apply domain_token_path_component.
Qed.

Lemma connect_store_eq (fs : datadir) DomainName :
  path_component DomainName = true →
  connect fs DomainName =
    Return (match fs !! DomainName with
            | Some _ => fs
            | None => <[DomainName := None]> fs
            end, store fs DomainName).
Proof.
  intros Hpath. rewrite connect_path_component by done. unfold store.
  by destruct (fs !! DomainName).
Qed.

Lemma select_items_Return execute (fs : datadir) expr items :
  (select_items execute fs expr).2 = Return items →
  ∃ DomainName query_results,
    select_domain expr = Some DomainName
    ∧ execute (replace expr DomainName "datatable") (store fs DomainName)
      = Return query_results
    ∧ rows_to_items (table_info (store fs DomainName)) query_results
      = Return items.
Proof.
  unfold select_items.
  destruct (select_domain expr) as [DomainName|] eqn:Hdomain; [|done].
  unfold run_select.
  rewrite connect_store_eq by (by eapply select_domain_path_component).
  simpl. intros Hitems. exists DomainName.
  destruct (execute _ _) as [query_results| |]; [|done..].
  by exists query_results.
Qed.

Lemma rows_to_items_Forall2 cols query_results items :
  rows_to_items cols query_results = Return items →
  Forall2 (λ m row, row_attrs (λ _, false) cols row ∅ = Return m)
    items query_results.
Proof.
  revert items. induction query_results as [|row rest IH]; intros items; simpl.
  - intros [= <-]. constructor.
  - destruct (row_attrs _ cols row ∅) as [m| |] eqn:Hm; [|done..]. simpl.
    destruct (rows_to_items cols rest) as [results| |]; [|done..]. simpl.
    intros [= <-]. constructor; [done|]. by apply IH.
Qed.

Lemma row_attrs_all_dom cols row m :
  row_attrs (λ _, false) cols row ∅ = Return m →
  dom m = list_to_set cols.
Proof.
  intros ->%row_attrs_dom. rewrite dom_empty_L, (left_id_L ∅ (∪)).
  f_equal. induction cols as [|c cols IH]; [done|].
  rewrite filter_cons_True by done. by rewrite IH.
Qed.

(** Every mapping returned by [select_items] has the columns of the table
    as its names. *)
Lemma select_items_dom execute (fs : datadir) expr DomainName items m :
  select_domain expr = Some DomainName →
  (select_items execute fs expr).2 = Return items → m ∈ items →
  dom m = list_to_set (table_info (store fs DomainName)).
Proof.
  intros Hdomain (D & query_results & HD & _ & Hitems)%select_items_Return Hm.
  assert (D = DomainName) as -> by congruence.
  apply rows_to_items_Forall2 in Hitems.
  apply list_elem_of_lookup in Hm as [i Hi].
  destruct (Forall2_lookup_l _ _ _ _ _ Hitems Hi) as (row & _ & Hrow).
  by apply row_attrs_all_dom in Hrow.
Qed.

(** ** The schema *)

(** C1, as amended: a put of attributes with plain names, into a store
    in reach and within the limits of sqlite, leaves the columns of an
    existing table as they are, so adds none, and makes the table of a
    domain that has none, with [sdbkey] and then the names in sorted
    order; every mapping a later select returns has exactly the columns of
    the table as its names. *)
Theorem put_attributes_schema (fs : datadir) DomainName ItemName kwargs
    attributes :
  decode_attributes kwargs = Return attributes → attributes ≠ ∅ →
  in_reach fs DomainName →
  plain_names (sorted_keys attributes) →
  within_limits ItemName attributes →
  let fs' := (put_attributes fs DomainName ItemName kwargs).1 in
  (∀ t, fs !! DomainName = Some (Some t) →
        table_info (store fs' DomainName) = columns t)
  ∧ (store fs DomainName = None →
     NoDup (lowercase <$> "sdbkey" :: sorted_keys attributes) →
     table_info (store fs' DomainName) = "sdbkey" :: sorted_keys attributes)
  ∧ (∀ execute expr items m,
       select_domain expr = Some DomainName →
       (select_items execute fs' expr).2 = Return items → m ∈ items →
       dom m = list_to_set (table_info (store fs' DomainName))).
Proof.
  intros Hdecode Hne [Hpath _] Hplain _.
  rewrite (decode_put_attributes _ _ _ _ _ Hdecode). simpl. split_and!.
  - intros t Hfs. rewrite (store_attributes_next _ _ _ _ t) by done.
    case_bool_decide; simpl.
    + by rewrite store_insert.
    + by rewrite (store_lookup _ _ _ Hfs).
  - intros Hstore Hnd. rewrite store_attributes_first by done.
    rewrite bool_decide_eq_true_2 by done. simpl. by rewrite store_insert.
  - intros execute expr items m. apply select_items_dom.
Qed.

Lemma put_attributes_schema_witness :
  table_info (store (put_attributes ∅ "D" "item1" color_red_size_large).1 "D")
    = ["sdbkey"; "color"; "size"]
  ∧ table_info
      (store (put_attributes after_color_red "D" "item1" size_large).1 "D")
    = ["sdbkey"; "color"].
Proof.
  assert (Hd1 : decode_attributes color_red_size_large
                = Return {[ "color" := "red"; "size" := "large" ]})
    by (vm_compute; reflexivity).
  assert (Hd2 : decode_attributes size_large = Return {[ "size" := "large" ]})
    by (vm_compute; reflexivity).
  pose proof (put_attributes_schema ∅ "D" "item1" _ _ Hd1
    ltac:(by_computation) ltac:(by_computation) ltac:(by_computation)
    ltac:(by_computation)) as (_ & H1 & _).
  pose proof (put_attributes_schema after_color_red "D" "item1" _ _ Hd2
    ltac:(by_computation) ltac:(by_computation) ltac:(by_computation)
    ltac:(by_computation)) as (H2 & _ & _).
  split.
  - rewrite H1; [vm_compute; reflexivity|reflexivity|by_computation].
  - by rewrite (H2 (Table ["sdbkey"; "color"]
                      [[SqlText "item1"; SqlText "red"]])).
Defined.

(** C1 as stated fails: after a put of [color] and a put of [size] the
    table has no [size] column, and the rows selected carry none; the
    value of [size] sits in the [color] column. *)
Lemma put_attributes_adds_no_column :
  put_attributes ∅ "D" "item1" color_red = (after_color_red, Return ())
  ∧ (put_attributes after_color_red "D" "item1" size_large).2 = Return ()
  ∧ table_info
      (store (put_attributes after_color_red "D" "item1" size_large).1 "D")
    = ["sdbkey"; "color"]
  ∧ (select_items simple_select
       (put_attributes after_color_red "D" "item1" size_large).1
       "SELECT * FROM D ").2
    = Return [ {[ "sdbkey" := SqlText "item1"; "color" := SqlText "red" ]};
               {[ "sdbkey" := SqlText "item1"; "color" := SqlText "large" ]} ].
Proof. split_and!; vm_compute; reflexivity. Qed.

(** ** Domains without a table *)

(** C2: [create_domain] leaves a store without a table, and
    [get_attributes] on it, or on a name with no store at all, raises
    sqlite's error instead of returning the empty mapping. *)
Theorem get_attributes_unwritten_domain :
  create_domain ∅ "abc" = ({[ "abc" := None ]}, Return ())
  ∧ get_attributes {[ "abc" := None ]} "abc" "item1"
    = ({[ "abc" := None ]}, Raise OperationalError)
  ∧ get_attributes ∅ "abc" "item1"
    = ({[ "abc" := None ]}, Raise OperationalError).
Proof. split_and!; vm_compute; reflexivity. Qed.


Lemma get_attributes_no_sdbkey (fs : datadir) DomainName ItemName m :
  (get_attributes fs DomainName ItemName).2 = Return m → m !! "sdbkey" = None.
Proof.
  unfold get_attributes.
  destruct (connect fs DomainName) as [[fs' db]| |]; [|done..]. simpl.
  destruct (select_where_sdbkey ItemName db) as [fetched| |]; [|done..]. simpl.
  destruct fetched as [|row _]; [by intros [= <-]|].
  intros Hm. erewrite row_attrs_lookup_other; [|done|]; done.
Qed.


Lemma select_items_directory execute (fs : datadir) expr DomainName :
  select_domain expr = Some DomainName →
  (select_items execute fs expr).1 =
    match fs !! DomainName with
    | Some _ => fs
    | None => <[DomainName := None]> fs
    end.
Proof.
  intros Hdomain. unfold select_items, run_select. rewrite Hdomain.
  by rewrite connect_store_eq by (by eapply select_domain_path_component).
Qed.





(** * More of the behaviour *)

(** ** Creating and deleting domains *)

Lemma accepted_name_checkre name :
  accepted_name name ↔ is_Some (re_match checkre name).
Proof.
  split.
  - intros [Hvalid|(t & Hname & [Hchars Hlen])]; [by apply checkre_valid|].
    rewrite checkre_unfold, Hname. apply rep_is_Some; simpl; auto; lia.
  - intros [m Hm]. by apply checkre_Some in Hm.
Qed.

Lemma accepted_name_path_component name :
  accepted_name name → path_component name = true.
Proof.
  intros [Hvalid|(t & Hname & [Hchars Hlen])];
    [by apply valid_name_path_component|].
  unfold path_component. apply andb_true_iff; split; apply negb_true_iff.
  - unfold has_separator. rewrite Hname. apply not_true_is_false. intros H.
    apply existsb_exists in H as (c & Hin & Hc).
    apply list_elem_of_In, elem_of_app in Hin as [Hin|Hin].
    + rewrite Forall_forall in Hchars.
      rewrite name_char_not_separator in Hc; [done|]. by apply Hchars.
    + apply list_elem_of_singleton in Hin as ->. vm_compute in Hc. done.
  - apply bool_decide_eq_false_2. intros Hin.
    assert (length (chars name) ≤ 2)%nat as Hle.
    { repeat (apply elem_of_cons in Hin as [->|Hin]; [simpl; lia|]).
      by apply elem_of_nil in Hin. }
    rewrite Hname, length_app in Hle. simpl in Hle. lia.
Qed.

(** The directory after [create_domain]: as before, or with an empty
    store under a name that had none. *)
Lemma create_domain_directory (fs : datadir) name :
  (create_domain fs name).1 = fs
  ∨ (fs !! name = None ∧ (create_domain fs name).1 = <[name := None]> fs).
Proof.
  unfold create_domain. destruct (re_match checkre name); [|by left].
  case_bool_decide; [by left|]. unfold connect.
  destruct (has_separator name); [by left|].
  destruct (names_directory name); [by left|].
  destruct (fs !! name); [by left|by right].
Qed.

(** What [create_domain] does, case by case: a name outside the accepted
    ones raises InvalidParameterValue whatever the directory holds; an
    accepted name raises NumberDomainsExceeded in a directory of 100 or
    more files, and otherwise, when it is within the limit on the length
    of a file name, the call returns, with an empty store under the name
    if there was none. The directory changes in the last case only. The
    one accepted name beyond the limit, 255 characters and a newline, is
    not followed. *)
Theorem create_domain_cases (fs : datadir) name :
  (¬ accepted_name name
   ∧ create_domain fs name =
       (fs, Raise (AWSErrorException InvalidParameterValue
              ("Value (" +:+ name +:+ ") for parameter DomainName is invalid."))))
  ∨ (accepted_name name ∧ (DOMAIN_CAP ≤ size fs)%nat
     ∧ create_domain fs name =
         (fs, Raise (AWSErrorException NumberDomainsExceeded
                "Number of domains limit exceeded.")))
  ∨ (accepted_name name ∧ (size fs < DOMAIN_CAP)%nat
     ∧ ((String.length name ≤ NAME_MAX)%nat →
        create_domain fs name =
          ((match fs !! name with
            | Some _ => fs
            | None => <[name := None]> fs
            end), Return ()))).
Proof.
  destruct (re_match checkre name) as [m|] eqn:Hm.
  - assert (Hacc : accepted_name name)
      by (apply accepted_name_checkre; by eexists).
    rewrite create_domain_checked
      by (by eauto using accepted_name_path_component).
    case_bool_decide; [right; left|right; right]; split_and!; try done; try lia.
    intros _. by destruct (fs !! name).
  - left. split.
    + intros [m' Hm']%accepted_name_checkre. congruence.
    + unfold create_domain. by rewrite Hm.
Qed.

Lemma create_domain_cases_witness :
  create_domain ∅ "abc" = ({[ "abc" := None ]}, Return ()).
Proof.
  destruct (create_domain_cases ∅ "abc")
    as [[Hno _]|[(_ & Hcap & _)|(_ & _ & Hcreate)]].
  - destruct Hno. left. by_computation.
  - vm_compute in Hcap. lia.
  - apply Hcreate. vm_compute. lia.
Defined.

(** [delete_domain] of a name without separator returns, leaves no store
    of that name and every other store as it was; it changes nothing when
    there was no such store, and it takes back the [create_domain] of a
    name that had no store. *)
Theorem delete_domain_removes (fs : datadir) name :
  has_separator name = false →
  (delete_domain fs name).2 = Return ()
  ∧ ¬ name ∈ list_domains (delete_domain fs name).1
  ∧ (∀ other, other ≠ name → (delete_domain fs name).1 !! other = fs !! other)
  ∧ (fs !! name = None → (delete_domain fs name).1 = fs)
  ∧ (fs !! name = None →
     (delete_domain (create_domain fs name).1 name).1 = fs).
Proof.
  intros Hsep. unfold delete_domain. rewrite Hsep. simpl. split_and!.
  - done.
  - rewrite list_domains_elem_of, lookup_delete_eq. by intros [? ?].
  - intros other Hne. by apply lookup_delete_ne.
  - intros Hfs. by apply delete_id.
  - intros Hfs.
    destruct (create_domain_directory fs name) as [->|[_ ->]];
      [by apply delete_id|by rewrite delete_insert_id].
Qed.

Lemma delete_domain_removes_witness :
  (delete_domain (create_domain ∅ "abc").1 "abc").1 = (∅ : datadir)
  ∧ "abc" ∉ list_domains (delete_domain {[ "abc" := None ]} "abc").1.
Proof.
  pose proof (delete_domain_removes ∅ "abc" eq_refl) as (_ & _ & _ & _ & H).
  pose proof (delete_domain_removes {[ "abc" := None ]} "abc" eq_refl)
    as (_ & H' & _).
  split; [by apply H|exact H'].
Defined.

(** ** Deleting the rows of an item *)







(** ** One domain at a time *)

Lemma touches_only_refl DomainName fs : touches_only DomainName fs fs.
Proof. by intros other _. Qed.


Lemma touches_only_insert DomainName fs fs' db :
  touches_only DomainName fs fs' →
  touches_only DomainName fs (<[DomainName := db]> fs').
Proof. intros H other Hne. by rewrite lookup_insert_ne, H. Qed.

Lemma connect_Return (fs fs' : datadir) DomainName db :
  connect fs DomainName = Return (fs', db) →
  path_component DomainName = true
  ∧ fs' !! DomainName = Some db ∧ db = store fs DomainName
  ∧ touches_only DomainName fs fs'
  ∧ (is_Some (fs !! DomainName) → fs' = fs).
Proof.
  unfold connect, path_component, store.
  destruct (has_separator DomainName); [done|].
  destruct (names_directory DomainName); [done|].
  destruct (fs !! DomainName) as [db'|] eqn:Hdb; intros [= <- <-];
    (split_and!; [done| |done| |]).
  - done.
  - apply touches_only_refl.
  - done.
  - apply lookup_insert_eq.
  - apply touches_only_insert, touches_only_refl.
  - by intros [? ?].
Qed.


Lemma delete_attributes_touches fs DomainName ItemName :
  touches_only DomainName fs (delete_attributes fs DomainName ItemName).1.
Proof.
  unfold delete_attributes.
  destruct (connect fs DomainName) as [[fs' db]| |] eqn:Hconnect;
    [|apply touches_only_refl..].
  apply connect_Return in Hconnect as (_ & _ & _ & Hfs' & _).
  destruct (delete_where_sdbkey ItemName db); simpl;
    [by apply touches_only_insert|done..].
Qed.

Lemma store_attributes_touches fs DomainName ItemName attributes :
  touches_only DomainName fs
    (store_attributes fs DomainName ItemName attributes).1.
Proof.
  unfold store_attributes. case_bool_decide; [apply touches_only_refl|].
  destruct (connect fs DomainName) as [[fs' db]| |] eqn:Hconnect;
    [|apply touches_only_refl..].
  apply connect_Return in Hconnect as (_ & _ & _ & Hfs' & _).
  destruct (create_table_if_not_exists _ db) as [db1| |]; simpl; [|done..].
  destruct (insert_values _ db1); simpl; by apply touches_only_insert.
Qed.

Lemma put_attributes_touches fs DomainName ItemName kwargs :
  touches_only DomainName fs (put_attributes fs DomainName ItemName kwargs).1.
Proof.
  unfold put_attributes.
  destruct (decode_attributes kwargs);
    [apply store_attributes_touches|apply touches_only_refl..].
Qed.



Lemma get_attributes_touches fs DomainName ItemName :
  touches_only DomainName fs (get_attributes fs DomainName ItemName).1.
Proof.
  unfold get_attributes.
  destruct (connect fs DomainName) as [[fs' db]| |] eqn:Hconnect;
    [|apply touches_only_refl..].
  by apply connect_Return in Hconnect as (_ & _ & _ & Hfs' & _).
Qed.

Lemma select_items_touches execute fs expr DomainName :
  select_domain expr = Some DomainName →
  touches_only DomainName fs (select_items execute fs expr).1.
Proof.
  intros Hdomain. rewrite (select_items_directory _ _ _ _ Hdomain).
  destruct (fs !! DomainName);
    [apply touches_only_refl|apply touches_only_insert, touches_only_refl].
Qed.



(** ** Reads *)



(** ** What every directory of the program looks like *)

Lemma directory_ok_empty : directory_ok ∅.
Proof. intros name db Hdb. by rewrite lookup_empty in Hdb. Qed.

Lemma directory_ok_insert (fs : datadir) name db :
  directory_ok fs → path_component name = true →
  (∀ t, db = Some t → table_ok t) →
  directory_ok (<[name := db]> fs).
Proof.
  intros Hok Hpath Hdb other db'. destruct (decide (other = name)) as [->|Hne].
  - rewrite lookup_insert_eq. by intros [= <-].
  - rewrite lookup_insert_ne by done. apply Hok.
Qed.

Lemma directory_ok_delete (fs : datadir) name :
  directory_ok fs → directory_ok (delete name fs).
Proof.
  intros Hok other db'. destruct (decide (other = name)) as [->|Hne].
  - by rewrite lookup_delete_eq.
  - rewrite lookup_delete_ne by done. apply Hok.
Qed.

Lemma connect_ok (fs fs' : datadir) DomainName db :
  directory_ok fs → connect fs DomainName = Return (fs', db) →
  directory_ok fs' ∧ path_component DomainName = true
  ∧ ∀ t, db = Some t → table_ok t.
Proof.
  intros Hok Hconnect.
  pose proof (connect_Return _ _ _ _ Hconnect) as (Hpath & _ & _ & _ & _).
  rewrite connect_path_component in Hconnect by done.
  destruct (fs !! DomainName) as [db0|] eqn:Hfs; injection Hconnect as <- <-.
  - split_and!; [done..|]. by apply (Hok DomainName).
  - split_and!; [|done..]. by apply directory_ok_insert.
Qed.

Lemma create_domain_ok fs DomainName :
  directory_ok fs → directory_ok (create_domain fs DomainName).1.
Proof.
  intros Hok. unfold create_domain.
  destruct (re_match checkre DomainName); [|done].
  case_bool_decide; [done|].
  destruct (connect fs DomainName) as [[fs' db]| |] eqn:Hconnect; [|done..].
  by apply (connect_ok _ _ _ _ Hok) in Hconnect as [? _].
Qed.

Lemma delete_domain_ok fs DomainName :
  directory_ok fs → directory_ok (delete_domain fs DomainName).1.
Proof.
  intros Hok. unfold delete_domain.
  destruct (has_separator DomainName); [done|]. by apply directory_ok_delete.
Qed.

Lemma table_ok_filter t (P : list sqlval → Prop) `{∀ row, Decision (P row)} :
  table_ok t → table_ok (Table (columns t) (filter P (rows t))).
Proof.
  intros (Hcols & Hplain & Hnd & Hrows). split_and!; [done..|]. simpl.
  apply Forall_forall. intros row [_ Hrow]%list_elem_of_filter.
  rewrite Forall_forall in Hrows. by apply Hrows.
Qed.

Lemma delete_attributes_ok fs DomainName ItemName :
  directory_ok fs → directory_ok (delete_attributes fs DomainName ItemName).1.
Proof.
  intros Hok. unfold delete_attributes.
  destruct (connect fs DomainName) as [[fs' db]| |] eqn:Hconnect; [|done..].
  apply (connect_ok _ _ _ _ Hok) in Hconnect as (Hok' & Hpath & Hdb).
  unfold delete_where_sdbkey. destruct db as [t|]; [|done].
  destruct (column_index "sdbkey" (columns t)); [|done]. simpl.
  apply directory_ok_insert; [done..|]. intros t' [= <-].
  apply table_ok_filter. by apply Hdb.
Qed.

Lemma value_list_text ItemName attributes keys :
  Forall text_cell (value_list ItemName attributes keys).
Proof.
  unfold value_list. constructor; [by eexists|].
  apply Forall_fmap, Forall_forall. intros key _. by eexists.
Qed.

Lemma forallb_plain_names keys :
  forallb sql_identifier keys = true → plain_names keys.
Proof.
  intros Hplain. apply Forall_forall. intros key Hin.
  rewrite forallb_forall in Hplain. by apply Hplain, list_elem_of_In.
Qed.

Lemma create_table_ok keys db db1 :
  create_table_if_not_exists ("sdbkey" :: keys) db = Return db1 →
  keys ≠ [] → (∀ t, db = Some t → table_ok t) →
  ∀ t1, db1 = Some t1 → table_ok t1.
Proof.
  unfold create_table_if_not_exists.
  destruct (forallb sql_identifier ("sdbkey" :: keys)) eqn:Hplain; [|done].
  simpl negb. cbv iota. intros Hcreate Hkeys Hdb t1 ->.
  destruct db as [t|].
  - injection Hcreate as <-. by apply Hdb.
  - case_bool_decide as Hnd; [|done]. injection Hcreate as <-.
    split_and!; simpl; [|by apply forallb_plain_names|done|done].
    by exists keys.
Qed.

Lemma insert_values_ok ItemName attributes keys db1 db2 :
  insert_values (value_list ItemName attributes keys) db1 = Return db2 →
  (∀ t, db1 = Some t → table_ok t) →
  ∀ t2, db2 = Some t2 → table_ok t2.
Proof.
  unfold insert_values. destruct db1 as [t1|]; [|done].
  case_bool_decide as Hlen; [|done]. intros [= <-] Hdb1 t2 [= <-].
  destruct (Hdb1 t1 eq_refl) as (Hcols & Hnames & Hnd & Hrows).
  split_and!; [done..|]. simpl. apply Forall_app. split; [done|].
  constructor; [|done]. split; [done|apply value_list_text].
Qed.

Lemma store_attributes_ok fs DomainName ItemName attributes :
  directory_ok fs →
  directory_ok (store_attributes fs DomainName ItemName attributes).1.
Proof.
  intros Hok. unfold store_attributes. case_bool_decide as Hsize; [done|].
  destruct (connect fs DomainName) as [[fs' db]| |] eqn:Hconnect; [|done..].
  apply (connect_ok _ _ _ _ Hok) in Hconnect as (Hok' & Hpath & Hdb).
  destruct (create_table_if_not_exists _ db) as [db1| |] eqn:Hcreate;
    [|done..].
  assert (Hdb1 : ∀ t1, db1 = Some t1 → table_ok t1).
  { eapply create_table_ok; [done| |done]. intros Hnil.
    apply Hsize. by rewrite <- sorted_keys_length, Hnil. }
  destruct (insert_values _ db1) as [db2| |] eqn:Hinsert; simpl;
    (apply directory_ok_insert; [done..|]); [|done..].
  by eapply insert_values_ok.
Qed.

Lemma put_attributes_ok fs DomainName ItemName kwargs :
  directory_ok fs →
  directory_ok (put_attributes fs DomainName ItemName kwargs).1.
Proof.
  intros Hok. unfold put_attributes.
  destruct (decode_attributes kwargs); [by apply store_attributes_ok|done..].
Qed.

Lemma get_attributes_ok fs DomainName ItemName :
  directory_ok fs → directory_ok (get_attributes fs DomainName ItemName).1.
Proof.
  intros Hok. unfold get_attributes.
  destruct (connect fs DomainName) as [[fs' db]| |] eqn:Hconnect; [|done..].
  by apply (connect_ok _ _ _ _ Hok) in Hconnect as [? _].
Qed.

Lemma select_items_ok execute fs expr :
  directory_ok fs → directory_ok (select_items execute fs expr).1.
Proof.
  intros Hok. unfold select_items, run_select.
  destruct (select_domain expr) as [DomainName|]; [|done].
  destruct (connect fs DomainName) as [[fs' db]| |] eqn:Hconnect; [|done..].
  by apply (connect_ok _ _ _ _ Hok) in Hconnect as [? _].
Qed.

(** The invariant of the directories in reach. *)
Lemma reachable_ok fs : reachable fs → directory_ok fs.
Proof.
  induction 1;
    auto using directory_ok_empty, create_domain_ok, delete_domain_ok,
      delete_attributes_ok, put_attributes_ok, get_attributes_ok,
      select_items_ok.
Qed.

Lemma journal_length DomainName :
  String.length (journal DomainName) = (String.length DomainName + 8)%nat.
Proof.
  unfold journal. induction DomainName as [|c DomainName IH]; simpl;
    [reflexivity|]. by rewrite IH.
Qed.

Lemma names_fit_touched DomainName (fs fs' : datadir) :
  names_fit fs → touches_only DomainName fs fs' →
  (String.length (journal DomainName) ≤ NAME_MAX)%nat →
  names_fit fs'.
Proof.
  intros Hfit Htouch Hlen name db Hname.
  destruct (decide (name = DomainName)) as [->|Hother].
  - rewrite journal_length in *. split; [lia|]. intros _. lia.
  - rewrite (Htouch _ Hother) in Hname. by apply Hfit in Hname.
Qed.

Lemma reachable_names_fit fs : reachable fs → names_fit fs.
Proof.
  induction 1 as [|fs DomainName _ IH Hlen|fs DomainName _ IH Hsep
                  |fs DomainName ItemName _ IH (_ & Hlen & _) _
                  |fs DomainName ItemName kwargs _ IH Hput
                  |fs DomainName ItemName _ IH (_ & Hlen & _) _
                  |execute fs expr _ IH Hselect].
  - intros name db Hname. by rewrite lookup_empty in Hname.
  - destruct (create_domain_directory fs DomainName) as [->|[_ ->]]; [done|].
    intros name db [[-> <-]|[_ Hname]]%lookup_insert_Some.
    + split; [done|]. by intros [].
    + by apply IH in Hname.
  - unfold delete_domain. rewrite Hsep. simpl.
    intros name db [_ Hname]%lookup_delete_Some. by apply IH in Hname.
  - eapply names_fit_touched; [done|apply delete_attributes_touches|done].
  - destruct (decode_attributes kwargs) as [attributes| |] eqn:Hdecode;
      [|unfold put_attributes; by rewrite Hdecode..].
    destruct (decide (attributes = ∅)) as [->|Hne].
    + rewrite (decode_put_attributes _ _ _ _ _ Hdecode).
      unfold store_attributes. by rewrite bool_decide_eq_true_2.
    + destruct (Hput _ Hdecode Hne) as ((_ & Hlen & _) & _).
      eapply names_fit_touched; [done|apply put_attributes_touches|done].
  - eapply names_fit_touched; [done|apply get_attributes_touches|done].
  - destruct (select_domain expr) as [DomainName|] eqn:Hdomain.
    + destruct (Hselect _ eq_refl) as (_ & Hlen & _).
      eapply names_fit_touched; [done|by apply select_items_touches|done].
    + unfold select_items. by rewrite Hdomain.
Qed.

(** Whatever calls in reach were made since the directory was empty, and
    with whatever results and engine: every file has a file name within
    the limit of length, every table belongs to a file whose journal name
    is within the limit too, and it has [sdbkey] first and at least one
    more column, plain column names that differ without regard to case,
    and rows of texts, one for each column. *)
Theorem reachable_directory_ok fs :
  reachable fs → directory_ok fs ∧ names_fit fs.
Proof.
  intros Hreach. split; [by apply reachable_ok|by apply reachable_names_fit].
Qed.

Lemma reachable_directory_ok_witness :
  directory_ok (put_attributes after_color_red "D" "item1" size_large).1
  ∧ names_fit (put_attributes after_color_red "D" "item1" size_large).1.
Proof.
  apply reachable_directory_ok.
  apply reach_put_attributes; [apply after_color_red_reachable|].
  apply (put_in_reach_intro _ _ _ _ {[ "size" := "large" ]});
    [vm_compute; reflexivity|by_computation..].
Defined.

(** ** Gets that cannot fail *)







(** ** The numbered parameters *)

Lemma name_keys_bound (kwargs : gmap string string) n :
  (∀ i, (i < n)%nat → is_Some (kwargs !! attribute_key i "Name")) →
  (n ≤ size kwargs)%nat.
Proof.
  intros Hkeys.
  set (names := (λ i, attribute_key i "Name") <$> seq 0 n).
  assert (Hnodup : NoDup names) by (apply NoDup_fmap_2; [apply _|apply NoDup_seq]).
  assert (Hsub : list_to_set names ⊆ dom kwargs).
  { intros key Hkey. apply elem_of_list_to_set, list_elem_of_fmap in Hkey
      as (i & -> & Hi). apply elem_of_seq in Hi.
    apply elem_of_dom. apply (Hkeys i). lia. }
  apply subseteq_size in Hsub.
  rewrite size_list_to_set, size_dom in Hsub by done.
  unfold names in Hsub. by rewrite length_fmap, length_seq in Hsub.
Qed.

Lemma decode_loop_pairs fuel (kwargs : gmap string string) index attributes
    (pairs : list (string * string)) :
  (length pairs < fuel)%nat →
  (∀ i name value, pairs !! i = Some (name, value) →
     kwargs !! attribute_key (index + i) "Name" = Some name
     ∧ kwargs !! attribute_key (index + i) "Value" = Some value) →
  decode_loop fuel kwargs index attributes
  = decode_loop (fuel - length pairs) kwargs (index + length pairs)
      (foldl (λ attrs p, <[p.1 := p.2]> attrs) attributes pairs).
Proof.
  intros Hfuel Hpairs. revert fuel index attributes Hfuel Hpairs.
  induction pairs as [|[name value] pairs IH];
    intros fuel index attributes Hfuel Hpairs; simpl in *.
  - by rewrite Nat.sub_0_r, Nat.add_0_r.
  - destruct fuel as [|fuel]; [lia|]. simpl.
    destruct (Hpairs 0%nat name value eq_refl) as [Hname Hvalue].
    rewrite Nat.add_0_r in Hname, Hvalue. rewrite Hname, Hvalue.
    rewrite IH; [|lia|].
    + by rewrite <- Nat.add_succ_comm.
    + intros i n v Hi. rewrite Nat.add_succ_comm. by apply (Hpairs (S i)).
Qed.

(** When [kwargs] holds the names and values of [pairs] under the indices
    0, 1, ..., the decoding takes them in this order, a later value of a
    name replacing an earlier one, up to the first index without a name;
    entries with higher indices are not looked at. A name without its
    value there instead makes [put_attributes] raise KeyError with the
    directory untouched. *)
Theorem decode_attributes_pairs (kwargs : gmap string string)
    (pairs : list (string * string)) :
  (∀ i name value, pairs !! i = Some (name, value) →
     kwargs !! attribute_key i "Name" = Some name
     ∧ kwargs !! attribute_key i "Value" = Some value) →
  (kwargs !! attribute_key (length pairs) "Name" = None →
   decode_attributes kwargs
   = Return (foldl (λ attrs p, <[p.1 := p.2]> attrs) ∅ pairs))
  ∧ (is_Some (kwargs !! attribute_key (length pairs) "Name") →
     kwargs !! attribute_key (length pairs) "Value" = None →
     decode_attributes kwargs = Raise KeyError
     ∧ ∀ fs DomainName ItemName,
         put_attributes fs DomainName ItemName kwargs = (fs, Raise KeyError)).
Proof.
  intros Hpairs.
  assert (Hlen : (length pairs ≤ size kwargs)%nat).
  { apply name_keys_bound. intros i Hi.
    destruct (lookup_lt_is_Some_2 pairs i Hi) as [[name value] Hp].
    destruct (Hpairs i name value Hp) as [-> _]. by eexists. }
  assert (Hloop : decode_attributes kwargs
    = decode_loop (S (size kwargs) - length pairs) kwargs (length pairs)
        (foldl (λ attrs p, <[p.1 := p.2]> attrs) ∅ pairs)).
  { unfold decode_attributes.
    rewrite (decode_loop_pairs _ _ 0 _ pairs); [done|lia|done]. }
  destruct (S (size kwargs) - length pairs)%nat as [|fuel] eqn:Hfuel; [lia|].
  simpl in Hloop. split.
  - intros Hgap. by rewrite Hloop, Hgap.
  - intros [name Hname] Hvalue. rewrite Hname, Hvalue in Hloop.
    split; [done|]. intros fs DomainName ItemName.
    unfold put_attributes. by rewrite Hloop.
Qed.

Lemma decode_attributes_pairs_witness :
  decode_attributes color_red_size_large
  = Return (<[ "size" := "large" ]> (<[ "color" := "red" ]> ∅)).
Proof.
  apply (decode_attributes_pairs color_red_size_large
    [("color", "red"); ("size", "large")]).
  - intros [|[|i]] name value; simpl; intros [= <- <-] || intros [=];
      split; vm_compute; reflexivity.
  - vm_compute. reflexivity.
Defined.

(** ** Result rows of a select *)

Lemma row_attrs_outcome skip cols row attrs :
  (∃ m, row_attrs skip cols row attrs = Return m)
  ∨ row_attrs skip cols row attrs = Raise IndexError.
Proof.
  revert row attrs. induction cols as [|c cols IH]; intros row attrs; simpl.
  - left. by eexists.
  - destruct (skip c); [apply IH|]. destruct row; [by right|apply IH].
Qed.






(** ** The query that is run *)

Lemma no_occurrence_below_check old s n :
  no_occurrence_below old s n = true →
  ∀ i, (i < n)%nat → ¬ occurs_at old s i.
Proof.
  unfold no_occurrence_below, occurs_at. rewrite forallb_forall.
  intros Hall i Hi Hocc. specialize (Hall i).
  rewrite <- list_elem_of_In, elem_of_seq in Hall.
  specialize (Hall ltac:(lia)). apply negb_true_iff in Hall.
  by rewrite bool_decide_eq_true_2 in Hall.
Qed.

Lemma no_occurrence_check old s :
  old ≠ [] → no_occurrence_below old s (length s) = true →
  ∀ i, ¬ occurs_at old s i.
Proof.
  intros Hold Hcheck i.
  destruct (decide (i < length s)%nat) as [Hlt|Hge].
  - by apply (no_occurrence_below_check old s (length s)).
  - unfold occurs_at. rewrite drop_ge by lia. by intros ->%prefix_nil_inv.
Qed.

(** When the name read occurs in the expression only where it was read,
    the query that is run is the expression with [datatable] in the place
    of the name and everything else as it was. *)
Theorem select_items_query (expr : string) (pre tok post : list ascii) :
  chars expr = pre ++ tok ++ post →
  select_domain expr = Some (text tok) →
  (∀ i, (i < length pre)%nat → ¬ occurs_at tok (pre ++ tok ++ post) i) →
  (∀ i, ¬ occurs_at tok post i) →
  replace expr (text tok) "datatable"
    = text (pre ++ chars "datatable" ++ post)
  ∧ ∀ execute fs,
      select_items execute fs expr
      = run_select execute fs (text tok)
          (text (pre ++ chars "datatable" ++ post)).
Proof.
  intros Hexpr Hdomain Hpre Hpost.
  assert (Htok : tok ≠ []).
  { apply select_domain_Some in Hdomain
      as (_ & _ & _ & _ & _ & tok' & _ & _ & _ & _ & _ & _
          & (_ & _ & _ & [Hne _] & _) & Heq).
    apply (f_equal chars) in Heq.
    rewrite !list_ascii_of_string_of_list_ascii in Heq. by subst. }
  assert (Hreplace : replace expr (text tok) "datatable"
                     = text (pre ++ chars "datatable" ++ post)).
  { rewrite replace_unfold by (by destruct tok).
    rewrite list_ascii_of_string_of_list_ascii, Hexpr.
    rewrite replace_go_first by done. by rewrite replace_go_none. }
  split; [done|]. intros execute fs. unfold select_items.
  by rewrite Hdomain, Hreplace.
Qed.

Lemma select_items_query_witness :
  replace "SELECT * FROM D WHERE color = 'red'" "D" "datatable"
  = "SELECT * FROM datatable WHERE color = 'red'".
Proof.
  apply (select_items_query "SELECT * FROM D WHERE color = 'red'"
    (chars "SELECT * FROM ") (chars "D") (chars " WHERE color = 'red'")).
  - reflexivity.
  - vm_compute. reflexivity.
  - apply no_occurrence_below_check. vm_compute. reflexivity.
  - apply no_occurrence_check; [done|]. vm_compute. reflexivity.
Defined.

(** ** What can be raised *)

Lemma connect_Raise fs DomainName e :
  connect fs DomainName = Raise e → e = OperationalError.
Proof.
  unfold connect. destruct (has_separator DomainName); [done|].
  destruct (names_directory DomainName); [by intros [= <-]|].
  by destruct (fs !! DomainName).
Qed.

Lemma create_table_Raise cols db e :
  create_table_if_not_exists cols db = Raise e → e = OperationalError.
Proof.
  unfold create_table_if_not_exists.
  destruct (negb _); [done|]. destruct db; [done|].
  case_bool_decide; [done|]. by intros [= <-].
Qed.

Lemma insert_values_Raise values db e :
  insert_values values db = Raise e → e = OperationalError.
Proof.
  unfold insert_values. destruct db; [|by intros [= <-]].
  case_bool_decide; [done|]. by intros [= <-].
Qed.

Lemma decode_loop_Raise fuel kwargs index attributes e :
  decode_loop fuel kwargs index attributes = Raise e → e = KeyError.
Proof.
  revert index attributes. induction fuel as [|fuel IH];
    intros index attributes; simpl; [done|].
  destruct (kwargs !! attribute_key index "Name"); [|done].
  destruct (kwargs !! attribute_key index "Value"); [apply IH|by intros [= <-]].
Qed.

Lemma store_attributes_Raise fs DomainName ItemName attributes e :
  (store_attributes fs DomainName ItemName attributes).2 = Raise e →
  e = OperationalError.
Proof.
  unfold store_attributes. case_bool_decide; [done|].
  destruct (connect fs DomainName) as [[fs' db]| |] eqn:Hconnect; simpl;
    [|intros [= <-]; by eapply connect_Raise|done].
  destruct (create_table_if_not_exists _ db) as [db1| |] eqn:Hcreate; simpl;
    [|intros [= <-]; by eapply create_table_Raise|done].
  destruct (insert_values _ db1) as [db2| |] eqn:Hinsert; simpl;
    [done|intros [= <-]; by eapply insert_values_Raise|done].
Qed.

Lemma put_attributes_Raise fs DomainName ItemName kwargs e :
  (put_attributes fs DomainName ItemName kwargs).2 = Raise e →
  e = KeyError ∨ e = OperationalError.
Proof.
  unfold put_attributes.
  destruct (decode_attributes kwargs) as [attributes| |] eqn:Hdecode; simpl.
  - intros ?%store_attributes_Raise. by right.
  - intros [= <-]. left. by eapply decode_loop_Raise.
  - done.
Qed.

Lemma batch_loop_Raise fuel fs DomainName kwargs index e :
  (batch_loop fuel fs DomainName kwargs index).2 = Raise e →
  e = KeyError ∨ e = OperationalError.
Proof.
  revert fs index. induction fuel as [|fuel IH]; intros fs index; simpl;
    [done|].
  destruct (kwargs !! item_name_key index); [|done].
  unfold item_attributes. case_bool_decide; [|done].
  unfold call_put_attributes.
  destruct (list_to_map _ !! "DomainName"); [done|].
  destruct (list_to_map _ !! "ItemName") as [ItemName|]; [|done].
  destruct (put_attributes fs DomainName ItemName _) as [fs' [[]|e'|]] eqn:Hput;
    simpl; [apply IH| |done].
  intros [= <-]. eapply put_attributes_Raise. by rewrite Hput.
Qed.

Lemma get_attributes_Raise fs DomainName ItemName e :
  (get_attributes fs DomainName ItemName).2 = Raise e →
  e = OperationalError ∨ e = IndexError.
Proof.
  unfold get_attributes.
  destruct (connect fs DomainName) as [[fs' db]| |] eqn:Hconnect; simpl;
    [|intros [= <-]; left; by eapply connect_Raise|done].
  unfold select_where_sdbkey. destruct db as [t|]; simpl;
    [|intros [= <-]; by left].
  destruct (column_index "sdbkey" (columns t)); simpl;
    [|intros [= <-]; by left].
  destruct (filter _ _) as [|row rest]; [done|].
  destruct (row_attrs_outcome is_sdbkey (columns t) row ∅) as [[m ->]| ->];
    [done|]. intros [= <-]. by right.
Qed.

Lemma delete_attributes_Raise fs DomainName ItemName e :
  (delete_attributes fs DomainName ItemName).2 = Raise e →
  e = OperationalError.
Proof.
  unfold delete_attributes.
  destruct (connect fs DomainName) as [[fs' db]| |] eqn:Hconnect; simpl;
    [|intros [= <-]; by eapply connect_Raise|done].
  unfold delete_where_sdbkey. destruct db as [t|]; simpl;
    [|by intros [= <-]].
  destruct (column_index "sdbkey" (columns t)); simpl; [done|by intros [= <-]].
Qed.

Lemma rows_to_items_Raise cols query_results e :
  rows_to_items cols query_results = Raise e → e = IndexError.
Proof.
  induction query_results as [|row rest IH]; simpl; [done|].
  destruct (row_attrs_outcome (λ _, false) cols row ∅) as [[m ->]| ->];
    simpl; [|by intros [= <-]].
  destruct (rows_to_items cols rest); simpl; [done|auto|done].
Qed.

Lemma select_items_Raise execute fs expr e :
  (select_items execute fs expr).2 = Raise e →
  e = AttributeError ∨ e = OperationalError ∨ e = IndexError
  ∨ ∃ query db, execute query db = Raise e.
Proof.
  unfold select_items, run_select.
  destruct (select_domain expr) as [DomainName|]; simpl;
    [|intros [= <-]; by left].
  destruct (connect fs DomainName) as [[fs' db]| |] eqn:Hconnect; simpl;
    [|intros [= <-]; right; left; by eapply connect_Raise|done].
  destruct (execute _ db) as [query_results|e'|] eqn:Hexecute; simpl;
    [|intros [= <-]; do 3 right; by eauto|done].
  intros ->%rows_to_items_Raise. right. right. by left.
Qed.

Lemma create_domain_Raise fs name e :
  (create_domain fs name).2 = Raise e →
  ∃ msg, e = AWSErrorException InvalidParameterValue msg
       ∨ e = AWSErrorException NumberDomainsExceeded msg.
Proof.
  unfold create_domain. destruct (re_match checkre name) eqn:Hm; simpl.
  - case_bool_decide; simpl; [intros [= <-]; eexists; by right|].
    assert (path_component name = true) as Hpath
      by (apply accepted_name_path_component, accepted_name_checkre;
          by eexists).
    rewrite connect_path_component by done. by destruct (fs !! name).
  - intros [= <-]. eexists. by left.
Qed.




(** ** The dispatcher *)

Lemma bind_Return {A B} (o : outcome A) (f : A → outcome B) b :
  o ≫= f = Return b → ∃ a, o = Return a ∧ f a = Return b.
Proof. destruct o; [by eexists|done..]. Qed.

Lemma bind_Raise_const {A B} (o : outcome A) (b : B) e :
  o ≫= (λ _, Return b) = Raise e → o = Raise e.
Proof. destruct o; simpl; [done|by intros [= ->]|done]. Qed.

Lemma dispatch_no_exception_params execute fs Action kwargs t e :
  (dispatch execute fs Action kwargs).2 ≠ Return (Rendered t (Exception e)).
Proof.
  unfold dispatch, param.
  repeat case_bool_decide; repeat case_match; simpl; try done;
    intros (? & _ & [=])%bind_Return.
Qed.

Lemma dispatch_fault execute fs Action kwargs code msg :
  (∀ query db code' msg',
     execute query db ≠ Raise (AWSErrorException code' msg')) →
  (dispatch execute fs Action kwargs).2
    = Raise (AWSErrorException code msg) →
  Action = "CreateDomain"
  ∧ ∃ name, kwargs !! "DomainName" = Some name
          ∧ (dispatch execute fs Action kwargs).1 = (create_domain fs name).1
          ∧ (create_domain fs name).2 = Raise (AWSErrorException code msg).
Proof.
  intros Hengine. unfold dispatch, param.
  case_bool_decide as Hcreate.
  { destruct (kwargs !! "DomainName") as [name|]; simpl; [|done].
    intros Hr%bind_Raise_const. split; [done|]. by exists name. }
  case_bool_decide.
  { destruct (kwargs !! "DomainName") as [name|]; simpl; [|done].
    intros Hr%bind_Raise_const. unfold delete_domain in Hr.
    by destruct (has_separator name). }
  case_bool_decide; [done|].
  case_bool_decide.
  { destruct (kwargs !! "DomainName"), (kwargs !! "ItemName"); simpl;
      try done. by intros ?%bind_Raise_const%delete_attributes_Raise. }
  case_bool_decide.
  { destruct (kwargs !! "DomainName"), (kwargs !! "ItemName"); simpl;
      try done.
    by intros [?|?]%bind_Raise_const%put_attributes_Raise. }
  case_bool_decide.
  { destruct (kwargs !! "DomainName") as [D|],
      (kwargs !! "ItemName") as [I|]; simpl; try done.
    destruct (get_attributes fs D I) as [fs' [m|e'|]] eqn:Hget; simpl;
      try done.
    intros [= ->].
    pose proof (get_attributes_Raise fs D I (AWSErrorException code msg))
      as Hraise. rewrite Hget in Hraise. by destruct (Hraise eq_refl). }
  case_bool_decide.
  { destruct (kwargs !! "DomainName"); simpl; [|done].
    by intros [?|?]%bind_Raise_const%batch_loop_Raise. }
  case_bool_decide; [|done].
  destruct (kwargs !! "SelectExpression") as [expr|]; simpl; [|done].
  destruct (select_items execute fs expr) as [fs' [items|e'|]] eqn:Hselect;
    simpl; try done.
  intros [= ->].
  pose proof (select_items_Raise execute fs expr (AWSErrorException code msg))
    as Hraise. rewrite Hselect in Hraise.
  destruct (Hraise eq_refl) as [?|[?|[?|(query & db & Hq)]]]; try done.
  by destruct (Hengine query db code msg).
Qed.

(** No fault leaves [index]: it is answered by the error response. With
    an engine that raises no fault, the error response is the answer only
    to a CreateDomain whose [create_domain] raised, with the directory as
    it was; a missing parameter or sqlite's error are not answered by it.
    An action outside the eight known ones returns the fixed text and
    leaves the directory as it is. *)
Theorem index_error_response execute (fs : datadir) Action kwargs :
  (∀ code msg,
     (index execute fs Action kwargs).2 ≠ Raise (AWSErrorException code msg))
  ∧ ((∀ query db code msg,
        execute query db ≠ Raise (AWSErrorException code msg)) →
     ∀ t e,
       (index execute fs Action kwargs).2 = Return (Rendered t (Exception e)) →
       Action = "CreateDomain" ∧ t = "ErrorResponse.xml"
       ∧ (index execute fs Action kwargs).1 = fs
       ∧ ∃ name, kwargs !! "DomainName" = Some name
               ∧ (create_domain fs name).2 = Raise e)
  ∧ (Action ∉ ["CreateDomain"; "DeleteDomain"; "ListDomains";
               "DeleteAttributes"; "PutAttributes"; "GetAttributes";
               "BatchPutAttributes"; "Select"] →
     index execute fs Action kwargs = (fs, Return Whatever)).
Proof.
  split_and!.
  - intros code msg. unfold index.
    by destruct (dispatch execute fs Action kwargs) as [fs' [r|[]|]].
  - intros Hengine t e. unfold index.
    pose proof (dispatch_no_exception_params execute fs Action kwargs t e)
      as Hparams.
    pose proof (dispatch_fault execute fs Action kwargs) as Hfault.
    destruct (dispatch execute fs Action kwargs) as [fs' [r|[code msg| | | |]|]];
      simpl in *; try done.
    intros [= <- <-].
    destruct (Hfault code msg Hengine eq_refl) as (-> & name & Hname & Hfs & Hc).
    split_and!; [done..| |by exists name].
    rewrite Hfs. destruct (create_domain_directory fs name) as [->|[_ Heq]];
      [done|].
    unfold create_domain in Hc, Heq |- *.
    destruct (re_match checkre name); [|done].
    case_bool_decide; [done|].
    destruct (connect fs name) as [[fs'' db]| |] eqn:Hconnect; simpl in *;
      [done| |done].
    injection Hc as ->. by apply connect_Raise in Hconnect.
  - intros Hunknown. unfold index, dispatch.
    repeat (case_bool_decide as Heq;
            [destruct Hunknown; rewrite Heq; set_solver|clear Heq]).
    done.
Qed.

Lemma index_error_response_witness :
  ∃ e, (index simple_select ∅ "CreateDomain" {[ "DomainName" := "ab" ]}).2
       = Return (Rendered "ErrorResponse.xml" (Exception e))
     ∧ (create_domain ∅ "ab").2 = Raise e.
Proof.
  destruct (index_error_response simple_select ∅ "CreateDomain"
    {[ "DomainName" := "ab" ]}) as (_ & Hresponse & _).
  eexists. split; [vm_compute; reflexivity|].
  edestruct Hresponse as (_ & _ & _ & name & Hname & Hcreate).
  - intros query db code msg. unfold simple_select.
    repeat case_match; done.
  - vm_compute. reflexivity.
  - vm_compute in Hname. injection Hname as <-. exact Hcreate.
Defined.

(** ** Puts that raise *)




(** ** The key column *)

Lemma row_attrs_sdbkey names row m :
  "sdbkey" ∉ names →
  row_attrs (λ _, false) ("sdbkey" :: names) row ∅ = Return m →
  m !! "sdbkey" = row !! 0%nat.
Proof.
  intros Hnames. simpl. destruct row as [|v row]; [done|]. intros Hm.
  erewrite row_attrs_lookup_other; [|done|done]. apply lookup_insert_eq.
Qed.

(** C10, as amended: in a directory that calls in reach have led to,
    over a domain in reach whose table exists, every mapping
    [select_items] returns has the columns of the table as its names,
    [sdbkey] among them, bound to the first value of its result row;
    whenever the result row is a row of the table, as for a query that
    selects all columns, this value is the item key of the row: the row
    is one of those the statement for that key finds. No mapping
    [get_attributes] returns has an entry for [sdbkey]. *)
Theorem select_items_key_column execute (fs : datadir) expr DomainName t
    items :
  reachable fs →
  select_domain expr = Some DomainName →
  in_reach fs DomainName →
  fs !! DomainName = Some (Some t) →
  (select_items execute fs expr).2 = Return items →
  (∃ query_results,
     execute (replace expr DomainName "datatable") (Some t)
       = Return query_results
     ∧ Forall2 (λ m row,
         dom m = list_to_set (columns t)
         ∧ "sdbkey" ∈ dom m
         ∧ m !! "sdbkey" = row !! 0%nat
         ∧ (row ∈ rows t →
            ∃ ItemName found,
              m !! "sdbkey" = Some (SqlText ItemName)
              ∧ select_where_sdbkey ItemName (Some t) = Return found
              ∧ row ∈ found)) items query_results)
  ∧ (∀ ItemName m,
       (get_attributes fs DomainName ItemName).2 = Return m →
       m !! "sdbkey" = None).
Proof.
  intros Hreach Hdomain _ Hfs Hitems. split.
  - apply reachable_ok in Hreach.
    destruct (Hreach _ _ Hfs) as [_ Hok].
    destruct (Hok t eq_refl) as ((names & Hcols & _) & _ & Hnd & Hrows).
    rewrite Hcols in Hnd. pose proof (sdbkey_not_attribute _ Hnd) as Hnames.
    apply select_items_Return in Hitems
      as (D & query_results & HD & Hquery & Hitems).
    assert (D = DomainName) as -> by congruence.
    rewrite (store_lookup _ _ _ Hfs) in Hquery, Hitems. simpl in Hitems.
    exists query_results. split; [done|].
    apply rows_to_items_Forall2 in Hitems.
    eapply Forall2_impl; [done|]. intros m row Hm. simpl in Hm.
    pose proof (row_attrs_all_dom _ _ _ Hm) as Hdom.
    assert (Hkey : m !! "sdbkey" = row !! 0%nat).
    { rewrite Hcols in Hm. by apply (row_attrs_sdbkey names). }
    split_and!.
    + done.
    + rewrite Hdom, Hcols. apply elem_of_list_to_set. left.
    + done.
    + intros Hrow.
      destruct (proj1 (Forall_forall _ _) Hrows _ Hrow) as [Hlen Hcells].
      rewrite Hcols in Hlen.
      destruct row as [|v row]; [done|].
      apply Forall_cons in Hcells as [[ItemName ->] _].
      exists ItemName, (filter (λ r, key_is 0 ItemName r) (rows t)).
      split_and!; [done| |].
      * unfold select_where_sdbkey. by rewrite Hcols, column_index_head.
      * apply list_elem_of_filter. split; [|done].
        unfold key_is. by rewrite bool_decide_eq_true_2.
  - intros ItemName m. apply get_attributes_no_sdbkey.
Qed.

Lemma select_items_key_column_witness :
  let t := Table ["sdbkey"; "color"] [[SqlText "item1"; SqlText "red"]] in
  (select_items simple_select after_color_red "SELECT * FROM D ").2
    = Return [ {[ "sdbkey" := SqlText "item1"; "color" := SqlText "red" ]} ]
  ∧ (∃ query_results,
       simple_select "SELECT * FROM datatable " (Some t) = Return query_results
       ∧ Forall2 (λ m row,
           dom m = list_to_set (columns t)
           ∧ "sdbkey" ∈ dom m
           ∧ m !! "sdbkey" = row !! 0%nat
           ∧ (row ∈ rows t →
              ∃ ItemName found,
                m !! "sdbkey" = Some (SqlText ItemName)
                ∧ select_where_sdbkey ItemName (Some t) = Return found
                ∧ row ∈ found))
           [ ({[ "sdbkey" := SqlText "item1"; "color" := SqlText "red" ]}
               : gmap string sqlval) ]
           query_results)
  ∧ (get_attributes after_color_red "D" "item1").2
    = Return {[ "color" := SqlText "red" ]}.
Proof.
  intros t.
  assert (Hitems :
    (select_items simple_select after_color_red "SELECT * FROM D ").2
    = Return [ {[ "sdbkey" := SqlText "item1"; "color" := SqlText "red" ]} ])
    by (vm_compute; reflexivity).
  pose proof (select_items_key_column simple_select after_color_red
    "SELECT * FROM D " "D" t _ after_color_red_reachable
    ltac:(vm_compute; reflexivity) ltac:(by_computation) eq_refl
    Hitems) as [Hselect Hget].
  split_and!; [exact Hitems|exact Hselect|].
  vm_compute. reflexivity.
Defined.

(** C10 as stated fails: when the query names its columns, [sdbkey] is
    bound to the first of them; here to the colour, not to [item1]. *)
Lemma select_items_key_of_projection :
  store after_color_red "D"
    = Some (Table ["sdbkey"; "color"] [[SqlText "item1"; SqlText "red"]])
  ∧ (select_items simple_select after_color_red
       "SELECT color,sdbkey FROM D ").2
    = Return [ {[ "sdbkey" := SqlText "red"; "color" := SqlText "item1" ]} ].
Proof. split; vm_compute; reflexivity. Qed.
